(** * Payload parsers of the inference gateway: vLLM gRPC transcoding and
      OpenAI pass-through

    A shallow embedding of
    [pkg/epp/framework/plugins/payloadprocess/vllm_grpc.go] and
    [pkg/epp/framework/plugins/payloadprocess/openai.go], followed by the
    properties of the payload-transcoding specification that were checked
    against it.

    Conventions.
    - Go integers are [Z] with the wrap-around of each conversion written out.
    - Go strings and byte slices are [string] (a list of 8-bit characters).
    - [float32]/[float64] values are [spec_float] at precision 24/53.
    - A Go [(value, error)] result is [result]; the response operations of
      the pass-through parser, one of which can return [nil, nil], keep Go's
      pair of options.
    - Bytes handed to a decoder of another package (the JSON scanner, the
      protobuf runtime) are represented by what that decoder reads in them. *)

From Stdlib Require Import ZArith List Bool Lia.
From Stdlib Require Import Strings.String Strings.Ascii.
From Stdlib Require Import Floats.SpecFloat.
From stdpp Require Import base option gmap strings.

#[local] Set Warnings "-register-all".

Local Open Scope string_scope.
Local Open Scope Z_scope.

(** ** Results and errors *)

Inductive result (E A : Type) : Type :=
| Ok (a : A)
| Err (e : E).
Arguments Ok {E A} a.
Arguments Err {E A} e.

#[global] Instance result_bind {E} : MBind (result E) :=
  fun A B (k : A -> result E B) (r : result E A) =>
    match r with
    | Ok a => k a
    | Err e => Err e
    end.

(** ** Go machine integers *)

Module GoInt.

(** Value of the low [w] bits read as an unsigned integer. *)
Definition wrap_unsigned (w z : Z) : Z := z mod 2 ^ w.

(** Value of the low [w] bits read in two's complement. *)
Definition wrap_signed (w z : Z) : Z :=
  (z + 2 ^ (w - 1)) mod 2 ^ w - 2 ^ (w - 1).

(** The integer types the protobuf compiler generates for scalar fields. *)
Inductive kind : Type := Uint32 | Int32 | Uint64 | Int64.

Definition wrap (k : kind) (z : Z) : Z :=
  match k with
  | Uint32 => wrap_unsigned 32 z
  | Int32 => wrap_signed 32 z
  | Uint64 => wrap_unsigned 64 z
  | Int64 => wrap_signed 64 z
  end.

Definition min_value (k : kind) : Z :=
  match k with
  | Uint32 | Uint64 => 0
  | Int32 => - 2 ^ 31
  | Int64 => - 2 ^ 63
  end.

Definition max_value (k : kind) : Z :=
  match k with
  | Uint32 => 2 ^ 32 - 1
  | Int32 => 2 ^ 31 - 1
  | Uint64 => 2 ^ 64 - 1
  | Int64 => 2 ^ 63 - 1
  end.

Definition in_range (k : kind) (z : Z) : Prop :=
  min_value k <= z <= max_value k.

(** [a + b] evaluated at type [k]. *)
Definition add (k : kind) (a b : Z) : Z := wrap k (a + b).

(** The conversion [int(x)]; Go's [int] has 64 bits on the platforms the
    gateway is built for. *)
Definition int (z : Z) : Z := wrap_signed 64 z.

(** [a + b] evaluated at type [int]. *)
Definition int_add (a b : Z) : Z := int (a + b).

(** The conversion [uint32(x)]. *)
Definition uint32 (z : Z) : Z := wrap_unsigned 32 z.

End GoInt.

(** ** strconv: the number conversions encoding/json relies on *)

Module strconv.

Definition digit_of (c : ascii) : option Z :=
  let n := Z.of_N (N_of_ascii c) in
  if (48 <=? n) && (n <=? 57) then Some (n - 48) else None.

(** Reads a run of decimal digits: the value accumulated so far, the number
    of digits read, and the rest of the input. *)
Fixpoint read_digits (s : string) (acc : Z) (cnt : Z) : Z * Z * string :=
  match s with
  | EmptyString => (acc, cnt, s)
  | String c s' =>
      match digit_of c with
      | Some d => read_digits s' (10 * acc + d) (cnt + 1)
      | None => (acc, cnt, s)
      end
  end.

(** [ParseUint(s, 10, bitSize)]: digits only, not empty, below
    [2^bitSize]. [None] stands for both [ErrSyntax] and [ErrRange]. *)
Definition ParseUint (s : string) (bitSize : Z) : option Z :=
  match read_digits s 0 0 with
  | (v, cnt, EmptyString) =>
      if (0 <? cnt) && (v <? 2 ^ bitSize) then Some v else None
  | _ => None
  end.

(** [ParseInt(s, 10, bitSize)]: an optional sign, then [ParseUint]; the
    magnitude is cut off at [2^(bitSize-1)]. *)
Definition ParseInt (s : string) (bitSize : Z) : option Z :=
  let '(neg, s0) :=
    match s with
    | String "+" s' => (false, s')
    | String "-" s' => (true, s')
    | _ => (false, s)
    end in
  match ParseUint s0 bitSize with
  | None => None
  | Some un =>
      let cutoff := 2 ^ (bitSize - 1) in
      if negb neg && (cutoff <=? un) then None
      else if neg && (cutoff <? un) then None
      else Some (if neg then - un else un)
  end.

(** A decimal literal [[+-]digits[.digits][(e|E)[+-]digits]] read as
    [(negative, mantissa, exponent)], standing for
    [mantissa * 10^exponent]. *)
Definition read_decimal (s : string) : option (bool * Z * Z) :=
  let '(neg, s0) :=
    match s with
    | String "+" s' => (false, s')
    | String "-" s' => (true, s')
    | _ => (false, s)
    end in
  let '(ip, icnt, s1) := read_digits s0 0 0 in
  let '(m, fcnt, s2) :=
    match s1 with
    | String "." s' => read_digits s' ip 0
    | _ => (ip, 0, s1)
    end in
  if icnt + fcnt =? 0 then None
  else
    match s2 with
    | EmptyString => Some (neg, m, - fcnt)
    | String c s' =>
        if (Ascii.eqb c "e" || Ascii.eqb c "E")%bool then
          let '(eneg, s3) :=
            match s' with
            | String "+" s'' => (false, s'')
            | String "-" s'' => (true, s'')
            | _ => (false, s')
            end in
          match read_digits s3 0 0 with
          | (e, ecnt, EmptyString) =>
              if 0 <? ecnt
              then Some (neg, m, (if eneg then - e else e) - fcnt)
              else None
          | _ => None
          end
        else None
    end.

(** The quotient [n / d] of two positive integers rounded to the nearest
    float of the format, ties to even. *)
Definition round_quotient (prec emax : Z) (neg : bool) (n d : Z) : spec_float :=
  let '(mz, ez, lz) := SFdiv_core_binary prec emax n 0 d 0 in
  binary_round_aux prec emax neg mz ez lz.

Definition float_of_decimal (prec emax : Z) (neg : bool) (m e : Z) : spec_float :=
  if m =? 0 then S754_zero neg
  else if 0 <=? e then round_quotient prec emax neg (m * 10 ^ e) 1
  else round_quotient prec emax neg m (10 ^ (- e)).

(** [ParseFloat(s, bitSize)] on decimal literals: the nearest float, and
    [ErrRange] (here [None], like a syntax error) when that is infinite. *)
Definition ParseFloat (s : string) (bitSize : Z) : option spec_float :=
  let '(prec, emax) := if bitSize =? 32 then (24, 128) else (53, 1024) in
  match read_decimal s with
  | None => None
  | Some (neg, m, e) =>
      match float_of_decimal prec emax neg m e with
      | S754_infinity _ | S754_nan => None
      | f => Some f
      end
  end.

End strconv.

(** ** encoding/json: documents, and decoding into [any] *)

Module json.

(** A syntactically valid JSON document, as the scanner reads it. Numbers
    keep their literal text and strings are unquoted; object members stay
    in document order, duplicates included. *)
Inductive value : Type :=
| JNull
| JBool (b : bool)
| JNumber (lit : string)
| JString (s : string)
| JArray (elems : list value)
| JObject (members : list (string * value)).

(** The Go values [Unmarshal] stores into an empty interface. *)
Inductive any : Type :=
| AnyNil
| AnyBool (b : bool)
| AnyFloat64 (f : spec_float)
| AnyString (s : string)
| AnySlice (l : list any)
| AnyMap (m : gmap string any).

(** [valueInterface], with [arrayInterface], [objectInterface] and
    [literalInterface]. A number goes through [convertNumber], which calls
    [strconv.ParseFloat(s, 64)] and returns an [UnmarshalTypeError] when that
    fails, as it does with [ErrRange] on a literal beyond the float64 range.
    The decoder records the first error ([saveError]) and goes on, and
    [Unmarshal] returns it at the end. Only the presence of an error is
    visible to the callers modelled here, so decoding stops at the first
    one ([None]). *)
Fixpoint valueInterface (j : value) : option any :=
  match j with
  | JNull => Some AnyNil
  | JBool b => Some (AnyBool b)
  | JNumber lit => AnyFloat64 <$> strconv.ParseFloat lit 64
  | JString s => Some (AnyString s)
  | JArray elems =>
      AnySlice <$>
        (fix arrayInterface (l : list value) : option (list any) :=
           match l with
           | [] => Some []
           | x :: l' =>
               a ← valueInterface x;
               r ← arrayInterface l';
               Some (a :: r)
           end) elems
  | JObject members =>
      AnyMap <$>
        (fix objectInterface (ms : list (string * value)) (m : gmap string any)
           : option (gmap string any) :=
           match ms with
           | [] => Some m
           | (k, v) :: ms' =>
               a ← valueInterface v;
               objectInterface ms' (<[k := a]> m)
           end) members ∅
  end.

(** [foldName], as far as a comparison with an ASCII field name can tell:
    ASCII letters are upper-cased, and the only two other runes whose fold
    orbit reaches ASCII, U+017F (bytes C5 BF) and U+212A (bytes E2 84 AA),
    become [S] and [K]. Every other rune folds to a non-ASCII rune; its
    bytes are left as they are. *)
Fixpoint foldName (s : string) : string :=
  match s with
  | EmptyString => EmptyString
  | String c s1 =>
      let n := N_of_ascii c in
      if ((97 <=? n) && (n <=? 122))%N
      then String (ascii_of_N (n - 32)) (foldName s1)
      else
        match s1 with
        | String c2 s2 =>
            if ((n =? 197) && (N_of_ascii c2 =? 191))%N
            then String "S" (foldName s2)
            else
              match s2 with
              | String c3 s3 =>
                  if ((n =? 226) && (N_of_ascii c2 =? 132)
                      && (N_of_ascii c3 =? 170))%N
                  then String "K" (foldName s3)
                  else String c (foldName s1)
              | EmptyString => String c (foldName s1)
              end
        | EmptyString => String c (foldName s1)
        end
  end.

(** The number grammar of JSON: an optional minus sign; an integer part
    that is either 0 or starts with a non-zero digit; an optional fraction
    of a dot and at least one digit; an optional exponent of e or E, an
    optional sign and at least one digit. *)
Definition valid_number (lit : string) : bool :=
  let s0 := match lit with String "-" s' => s' | _ => lit end in
  let '(_, icnt, s1) := strconv.read_digits s0 0 0 in
  let leading_zero :=
    match s0 with String "0" _ => true | _ => false end in
  if (icnt =? 0) || (leading_zero && (1 <? icnt)) then false
  else
    let frac :=
      match s1 with
      | String "." s' =>
          let '(_, fcnt, s2) := strconv.read_digits s' 0 0 in
          if 0 <? fcnt then Some s2 else None
      | _ => Some s1
      end in
    match frac with
    | None => false
    | Some EmptyString => true
    | Some (String c s') =>
        if (Ascii.eqb c "e" || Ascii.eqb c "E")%bool then
          let s3 :=
            match s' with
            | String "+" s'' => s''
            | String "-" s'' => s''
            | _ => s'
            end in
          match strconv.read_digits s3 0 0 with
          | (_, ecnt, EmptyString) => 0 <? ecnt
          | _ => false
          end
        else false
    end.

(** Every number literal of the document follows the grammar. *)
Fixpoint valid (j : value) : bool :=
  match j with
  | JNumber lit => valid_number lit
  | JArray elems => forallb valid elems
  | JObject members =>
      (fix all (ms : list (string * value)) : bool :=
         match ms with
         | [] => true
         | (_, v) :: ms' => valid v && all ms'
         end) members
  | _ => true
  end.

End json.

(** ** github.com/google/uuid *)

Module uuid.

(** The source of random bytes: byte [i] of the stream the reader
    delivers. *)
Definition Reader : Type := nat -> Z.

Definition hextable : string := "0123456789abcdef".

Definition hexdigit (n : Z) : ascii :=
  match String.get (Z.to_nat n) hextable with
  | Some c => c
  | None => "0"%char
  end.

(** [hex.Encode]: two lower-case digits per byte. *)
Fixpoint hex_Encode (src : list Z) : string :=
  match src with
  | [] => EmptyString
  | b :: src' =>
      String (hexdigit (Z.shiftr b 4))
        (String (hexdigit (Z.land b 15)) (hex_Encode src'))
  end.

(** [NewRandom]: sixteen bytes from the reader, then the version and
    variant bits. *)
Definition NewRandom (r : Reader) : list Z :=
  let u := map (fun i => r i mod 256) (seq 0 16) in
  let u := alter (fun b => Z.lor (Z.land b 15) 64) 6%nat u in
  alter (fun b => Z.lor (Z.land b 63) 128) 8%nat u.

(** [UUID.String]: the form xxxxxxxx-xxxx-xxxx-xxxx-xxxxxxxxxxxx. *)
Definition String_ (u : list Z) : string :=
  hex_Encode (firstn 4 u) ++ "-" ++
  hex_Encode (firstn 2 (skipn 4 u)) ++ "-" ++
  hex_Encode (firstn 2 (skipn 6 u)) ++ "-" ++
  hex_Encode (firstn 2 (skipn 8 u)) ++ "-" ++
  hex_Encode (skipn 10 u).

Definition NewString (r : Reader) : string := String_ (NewRandom r).

End uuid.

(** ** The generated protobuf messages of the vLLM engine *)

Module vllm.

Definition float32_0 : spec_float := S754_zero false.
Definition float32_1 : spec_float := Eval cbv in SFone 24 128.

(** The fields of [SamplingParams] this package assigns; the others keep
    their zero value throughout. [MaxTokens], [Temperature] and [Seed] are
    optional (pointers), [Stop] is repeated. *)
Record SamplingParams : Type := {
  Temperature : option spec_float;
  TopP : spec_float;
  FrequencyPenalty : spec_float;
  PresencePenalty : spec_float;
  MaxTokens : option Z;
  Stop : list string;
  N : Z;
  Seed : option Z
}.

(** [&vllm.SamplingParams{}] *)
Definition SamplingParams_zero : SamplingParams :=
  {| Temperature := None; TopP := float32_0; FrequencyPenalty := float32_0;
     PresencePenalty := float32_0; MaxTokens := None; Stop := [];
     N := 0; Seed := None |}.

Inductive isGenerateRequest_Input : Type :=
| GenerateRequest_Text (Text : string).

Record GenerateRequest : Type := {
  RequestId : string;
  Input : option isGenerateRequest_Input;
  SamplingParams_ : option SamplingParams;
  Stream : bool
}.

(** The two token counters of [GenerateComplete] and of
    [GenerateStreamChunk]. Their integer type is declared in the generated
    package; it is the parameter [GoInt.kind] of the parser below. *)
Record GenerateComplete : Type := {
  Complete_PromptTokens : Z;
  Complete_CompletionTokens : Z;
  Complete_FinishReason : string
}.

Record GenerateStreamChunk : Type := {
  Chunk_PromptTokens : Z;
  Chunk_CompletionTokens : Z
}.

Inductive isGenerateResponse_Response : Type :=
| GenerateResponse_Chunk (Chunk : GenerateStreamChunk)
| GenerateResponse_Complete (Complete : GenerateComplete).

Record GenerateResponse : Type := {
  Response : option isGenerateResponse_Response
}.

Definition GetComplete (x : GenerateResponse) : option GenerateComplete :=
  match Response x with
  | Some (GenerateResponse_Complete c) => Some c
  | _ => None
  end.

Definition GetChunk (x : GenerateResponse) : option GenerateStreamChunk :=
  match Response x with
  | Some (GenerateResponse_Chunk c) => Some c
  | _ => None
  end.

End vllm.

(** ** The framework types the parsers produce *)

Module requestcontrol.

Record Usage : Type := {
  PromptTokens : Z;
  CompletionTokens : Z;
  TotalTokens : Z
}.

End requestcontrol.

Module payloadprocess.

(** [Usage] is a pointer in the source. *)
Record ParsedResponse : Type := {
  Usage : option requestcontrol.Usage
}.

End payloadprocess.

Module scheduling.

(** What [ParsedBody] holds: nothing yet, the decoded JSON object of the
    pass-through parser, or the serialized message of the transcoding
    parser. *)
Inductive parsed_body : Type :=
| NoParsedBody
| BodyMap (m : gmap string json.any)
| ProtoBytes (b : string).

Section Content.

(** The content of a chat message; the type and its [PlainText] method
    belong to the scheduling package. *)
Variable Content : Type.

Record Message : Type := {
  Role : string;
  Content_ : Content
}.

Record ChatCompletionsRequest : Type := {
  Messages : list Message
}.

(** The views of [LLMRequestBody] other than chat completions are not
    read by this package. *)
Record LLMRequestBody : Type := {
  ChatCompletions : option ChatCompletionsRequest;
  ParsedBody : parsed_body
}.

End Content.

Arguments Role {Content} _.
Arguments Content_ {Content} _.
Arguments Messages {Content} _.
Arguments ChatCompletions {Content} _.
Arguments ParsedBody {Content} _.

End scheduling.

(** ** Errors *)

(** The errors of the two parsers, one constructor per place that makes
    one. *)
Inductive error : Type :=
| Collaborator (msg : string)
| NotChatCompletions
| UnmarshalSamplingParams
| StreamingNotImplemented
| MarshalProto
| UnmarshalGenerateResponse
| NoCompleteBlock
| UnmarshalChunk
| NoUsageInChunk
| UnmarshalBodyMap
| NoUsageInStreamResponse.

(** The text of each error; a wrapped cause follows the colon. *)
Definition message (e : error) : string :=
  match e with
  | Collaborator msg => msg
  | NotChatCompletions =>
      "Not implemented. vLLM gRPC parser expects a chat completions request"
  | UnmarshalSamplingParams => "error unmarshalling sampling params: "
  | StreamingNotImplemented => "streaming is not yet implemented for vLLM gRPC"
  | MarshalProto => "error marshaling proto: "
  | UnmarshalGenerateResponse => "error unmarshalling gRPC GenerateResponse: "
  | NoCompleteBlock => "unary response did not contain Complete block"
  | UnmarshalChunk => "error unmarshalling chunk: "
  | NoUsageInChunk => "unable to parse usage from stream chunk"
  | UnmarshalBodyMap => "error unmarshalling the bodyMap"
  | NoUsageInStreamResponse => "unable to parse usage from stream response"
  end.

(** The error taxonomy of the specification. *)
Inductive category : Type :=
| MalformedInput
| UnsupportedInput
| UnsupportedFeature
| IncompleteResponse.

(** Where the specification files each error; it does not classify what a
    collaborator returns, nor a failure of the protobuf encoder. *)
Definition category_of (e : error) : option category :=
  match e with
  | Collaborator _ | MarshalProto => None
  | NotChatCompletions => Some UnsupportedInput
  | StreamingNotImplemented => Some UnsupportedFeature
  | UnmarshalSamplingParams | UnmarshalGenerateResponse | UnmarshalChunk
  | UnmarshalBodyMap => Some MalformedInput
  | NoCompleteBlock | NoUsageInChunk | NoUsageInStreamResponse =>
      Some IncompleteResponse
  end.

(** ** vllm_grpc.go: the transcoding parser *)

Module vllm_grpc.

Definition vllmMaxTokens : Z := 1024.

(** The struct the sampling parameters and the stream flag are decoded
    into. [*int] holds a 64-bit value, [*int32] a 32-bit one. *)
Record samplingParams : Type := {
  MaxTokens : option Z;
  Temperature : option spec_float;
  TopP : option spec_float;
  FrequencyPenalty : option spec_float;
  PresencePenalty : option spec_float;
  N : option Z;
  Seed : option Z;
  Stream : bool;
  Stop : json.any
}.

(** [var params samplingParams] *)
Definition samplingParams_zero : samplingParams :=
  {| MaxTokens := None; Temperature := None; TopP := None;
     FrequencyPenalty := None; PresencePenalty := None; N := None;
     Seed := None; Stream := false; Stop := json.AnyNil |}.

(** The fields of [samplingParams], each with its json tag. *)
Inductive field : Type :=
| FMaxTokens | FTemperature | FTopP | FFrequencyPenalty | FPresencePenalty
| FN | FSeed | FStream | FStop.

Definition tag (f : field) : string :=
  match f with
  | FMaxTokens => "max_tokens"
  | FTemperature => "temperature"
  | FTopP => "top_p"
  | FFrequencyPenalty => "frequency_penalty"
  | FPresencePenalty => "presence_penalty"
  | FN => "n"
  | FSeed => "seed"
  | FStream => "stream"
  | FStop => "stop"
  end.

Definition fields : list field :=
  [FMaxTokens; FTemperature; FTopP; FFrequencyPenalty; FPresencePenalty;
   FN; FSeed; FStream; FStop].

(** The field an object key is decoded into: the one whose tag equals the
    key, else the one whose folded tag equals the folded key. The nine
    folded tags differ, so the second test covers the first. *)
Definition field_of_key (key : string) : option field :=
  List.find
    (fun f => String.eqb (json.foldName (tag f)) (json.foldName key))
    fields.

(** [literalStore] into [*int] ([bits] = 64) or [*int32] ([bits] = 32):
    a number is read with [strconv.ParseInt(s, 10, 64)], and it is an
    [UnmarshalTypeError] when that fails or when [OverflowInt] finds that the
    value does not fit the target. Null resets the pointer; a value of any
    other JSON type is an [UnmarshalTypeError] too. *)
Definition decode_int (bits : Z) (v : json.value) : option (option Z) :=
  match v with
  | json.JNull => Some None
  | json.JNumber lit =>
      match strconv.ParseInt lit 64 with
      | Some i =>
          if GoInt.wrap_signed bits i =? i then Some (Some i) else None
      | None => None
      end
  | _ => None
  end.

(** [literalStore] into [*float32]: a number is read with
    [strconv.ParseFloat(s, 32)], an [UnmarshalTypeError] when that fails. *)
Definition decode_float32 (v : json.value) : option (option spec_float) :=
  match v with
  | json.JNull => Some None
  | json.JNumber lit =>
      match strconv.ParseFloat lit 32 with
      | Some f => Some (Some f)
      | None => None
      end
  | _ => None
  end.

(** [literalStore] into [bool]: null leaves the field as it is. *)
Definition decode_bool (v : json.value) (old : bool) : option bool :=
  match v with
  | json.JNull => Some old
  | json.JBool b => Some b
  | _ => None
  end.

Definition set_MaxTokens x (p : samplingParams) : samplingParams :=
  {| MaxTokens := x; Temperature := Temperature p; TopP := TopP p;
     FrequencyPenalty := FrequencyPenalty p;
     PresencePenalty := PresencePenalty p; N := N p; Seed := Seed p;
     Stream := Stream p; Stop := Stop p |}.
Definition set_Temperature x (p : samplingParams) : samplingParams :=
  {| MaxTokens := MaxTokens p; Temperature := x; TopP := TopP p;
     FrequencyPenalty := FrequencyPenalty p;
     PresencePenalty := PresencePenalty p; N := N p; Seed := Seed p;
     Stream := Stream p; Stop := Stop p |}.
Definition set_TopP x (p : samplingParams) : samplingParams :=
  {| MaxTokens := MaxTokens p; Temperature := Temperature p; TopP := x;
     FrequencyPenalty := FrequencyPenalty p;
     PresencePenalty := PresencePenalty p; N := N p; Seed := Seed p;
     Stream := Stream p; Stop := Stop p |}.
Definition set_FrequencyPenalty x (p : samplingParams) : samplingParams :=
  {| MaxTokens := MaxTokens p; Temperature := Temperature p; TopP := TopP p;
     FrequencyPenalty := x;
     PresencePenalty := PresencePenalty p; N := N p; Seed := Seed p;
     Stream := Stream p; Stop := Stop p |}.
Definition set_PresencePenalty x (p : samplingParams) : samplingParams :=
  {| MaxTokens := MaxTokens p; Temperature := Temperature p; TopP := TopP p;
     FrequencyPenalty := FrequencyPenalty p;
     PresencePenalty := x; N := N p; Seed := Seed p;
     Stream := Stream p; Stop := Stop p |}.
Definition set_N x (p : samplingParams) : samplingParams :=
  {| MaxTokens := MaxTokens p; Temperature := Temperature p; TopP := TopP p;
     FrequencyPenalty := FrequencyPenalty p;
     PresencePenalty := PresencePenalty p; N := x; Seed := Seed p;
     Stream := Stream p; Stop := Stop p |}.
Definition set_Seed x (p : samplingParams) : samplingParams :=
  {| MaxTokens := MaxTokens p; Temperature := Temperature p; TopP := TopP p;
     FrequencyPenalty := FrequencyPenalty p;
     PresencePenalty := PresencePenalty p; N := N p; Seed := x;
     Stream := Stream p; Stop := Stop p |}.
Definition set_Stream x (p : samplingParams) : samplingParams :=
  {| MaxTokens := MaxTokens p; Temperature := Temperature p; TopP := TopP p;
     FrequencyPenalty := FrequencyPenalty p;
     PresencePenalty := PresencePenalty p; N := N p; Seed := Seed p;
     Stream := x; Stop := Stop p |}.
Definition set_Stop x (p : samplingParams) : samplingParams :=
  {| MaxTokens := MaxTokens p; Temperature := Temperature p; TopP := TopP p;
     FrequencyPenalty := FrequencyPenalty p;
     PresencePenalty := PresencePenalty p; N := N p; Seed := Seed p;
     Stream := Stream p; Stop := x |}.

(** Decoding one member value into field [f]. *)
Definition store (f : field) (v : json.value) (p : samplingParams)
  : option samplingParams :=
  match f with
  | FMaxTokens => x ← decode_int 64 v; Some (set_MaxTokens x p)
  | FTemperature => x ← decode_float32 v; Some (set_Temperature x p)
  | FTopP => x ← decode_float32 v; Some (set_TopP x p)
  | FFrequencyPenalty =>
      x ← decode_float32 v; Some (set_FrequencyPenalty x p)
  | FPresencePenalty =>
      x ← decode_float32 v; Some (set_PresencePenalty x p)
  | FN => x ← decode_int 64 v; Some (set_N x p)
  | FSeed => x ← decode_int 32 v; Some (set_Seed x p)
  | FStream => x ← decode_bool v (Stream p); Some (set_Stream x p)
  | FStop => x ← json.valueInterface v; Some (set_Stop x p)
  end.

(** The members of an object, in document order; a key that names no field
    is skipped. The decoder records the first type error and goes on, and
    returns it at the end: the result is an error as soon as one member
    fails. *)
Fixpoint decode_members (ms : list (string * json.value)) (p : samplingParams)
  : option samplingParams :=
  match ms with
  | [] => Some p
  | (key, v) :: ms' =>
      match field_of_key key with
      | Some f => p' ← store f v p; decode_members ms' p'
      | None => decode_members ms' p
      end
  end.

(** [json.Unmarshal(body, &params)] on a zero [params]. [None] as the body
    is a byte string that is not valid JSON; [None] as the result is the
    error returned. A null document leaves the struct as it is, and a
    document that is neither null nor an object is a type error. *)
Definition Unmarshal (body : option json.value) : option samplingParams :=
  match body with
  | None => None
  | Some json.JNull => Some samplingParams_zero
  | Some (json.JObject members) => decode_members members samplingParams_zero
  | Some _ => None
  end.

Definition with_MaxTokens x (sp : vllm.SamplingParams) : vllm.SamplingParams :=
  {| vllm.Temperature := vllm.Temperature sp; vllm.TopP := vllm.TopP sp;
     vllm.FrequencyPenalty := vllm.FrequencyPenalty sp;
     vllm.PresencePenalty := vllm.PresencePenalty sp;
     vllm.MaxTokens := x; vllm.Stop := vllm.Stop sp;
     vllm.N := vllm.N sp; vllm.Seed := vllm.Seed sp |}.
Definition with_Temperature x (sp : vllm.SamplingParams) : vllm.SamplingParams :=
  {| vllm.Temperature := x; vllm.TopP := vllm.TopP sp;
     vllm.FrequencyPenalty := vllm.FrequencyPenalty sp;
     vllm.PresencePenalty := vllm.PresencePenalty sp;
     vllm.MaxTokens := vllm.MaxTokens sp; vllm.Stop := vllm.Stop sp;
     vllm.N := vllm.N sp; vllm.Seed := vllm.Seed sp |}.
Definition with_TopP x (sp : vllm.SamplingParams) : vllm.SamplingParams :=
  {| vllm.Temperature := vllm.Temperature sp; vllm.TopP := x;
     vllm.FrequencyPenalty := vllm.FrequencyPenalty sp;
     vllm.PresencePenalty := vllm.PresencePenalty sp;
     vllm.MaxTokens := vllm.MaxTokens sp; vllm.Stop := vllm.Stop sp;
     vllm.N := vllm.N sp; vllm.Seed := vllm.Seed sp |}.
Definition with_FrequencyPenalty x (sp : vllm.SamplingParams)
  : vllm.SamplingParams :=
  {| vllm.Temperature := vllm.Temperature sp; vllm.TopP := vllm.TopP sp;
     vllm.FrequencyPenalty := x;
     vllm.PresencePenalty := vllm.PresencePenalty sp;
     vllm.MaxTokens := vllm.MaxTokens sp; vllm.Stop := vllm.Stop sp;
     vllm.N := vllm.N sp; vllm.Seed := vllm.Seed sp |}.
Definition with_PresencePenalty x (sp : vllm.SamplingParams)
  : vllm.SamplingParams :=
  {| vllm.Temperature := vllm.Temperature sp; vllm.TopP := vllm.TopP sp;
     vllm.FrequencyPenalty := vllm.FrequencyPenalty sp;
     vllm.PresencePenalty := x;
     vllm.MaxTokens := vllm.MaxTokens sp; vllm.Stop := vllm.Stop sp;
     vllm.N := vllm.N sp; vllm.Seed := vllm.Seed sp |}.
Definition with_N x (sp : vllm.SamplingParams) : vllm.SamplingParams :=
  {| vllm.Temperature := vllm.Temperature sp; vllm.TopP := vllm.TopP sp;
     vllm.FrequencyPenalty := vllm.FrequencyPenalty sp;
     vllm.PresencePenalty := vllm.PresencePenalty sp;
     vllm.MaxTokens := vllm.MaxTokens sp; vllm.Stop := vllm.Stop sp;
     vllm.N := x; vllm.Seed := vllm.Seed sp |}.
Definition with_Seed x (sp : vllm.SamplingParams) : vllm.SamplingParams :=
  {| vllm.Temperature := vllm.Temperature sp; vllm.TopP := vllm.TopP sp;
     vllm.FrequencyPenalty := vllm.FrequencyPenalty sp;
     vllm.PresencePenalty := vllm.PresencePenalty sp;
     vllm.MaxTokens := vllm.MaxTokens sp; vllm.Stop := vllm.Stop sp;
     vllm.N := vllm.N sp; vllm.Seed := x |}.
Definition with_Stop x (sp : vllm.SamplingParams) : vllm.SamplingParams :=
  {| vllm.Temperature := vllm.Temperature sp; vllm.TopP := vllm.TopP sp;
     vllm.FrequencyPenalty := vllm.FrequencyPenalty sp;
     vllm.PresencePenalty := vllm.PresencePenalty sp;
     vllm.MaxTokens := vllm.MaxTokens sp; vllm.Stop := x;
     vllm.N := vllm.N sp; vllm.Seed := vllm.Seed sp |}.

(** The type switch on [params.Stop]: a string, or the strings of a slice
    appended one by one; every other dynamic type falls through. *)
Definition stop_sequences (v : json.any) (sp : vllm.SamplingParams)
  : vllm.SamplingParams :=
  match v with
  | json.AnyString s => with_Stop [s] sp
  | json.AnySlice items =>
      fold_left
        (fun sp item =>
           match item with
           | json.AnyString s => with_Stop (vllm.Stop sp ++ [s]) sp
           | _ => sp
           end)
        items sp
  | _ => sp
  end.

Definition ParseSamplingParams (body : option json.value)
  : result error (vllm.SamplingParams * bool) :=
  match Unmarshal body with
  | None => Err UnmarshalSamplingParams
  | Some params =>
      let sp := vllm.SamplingParams_zero in
      let sp := with_MaxTokens (Some vllmMaxTokens) sp in
      let sp := with_TopP vllm.float32_1 sp in
      let sp := with_N 1 sp in
      let sp :=
        match MaxTokens params with
        | Some v => with_MaxTokens (Some (GoInt.uint32 v)) sp
        | None => sp
        end in
      let sp :=
        match Temperature params with
        | Some v => with_Temperature (Some v) sp
        | None => sp
        end in
      let sp :=
        match TopP params with
        | Some v => with_TopP v sp
        | None => sp
        end in
      let sp :=
        match FrequencyPenalty params with
        | Some v => with_FrequencyPenalty v sp
        | None => sp
        end in
      let sp :=
        match PresencePenalty params with
        | Some v => with_PresencePenalty v sp
        | None => sp
        end in
      let sp :=
        match N params with
        | Some v => with_N (GoInt.uint32 v) sp
        | None => sp
        end in
      let sp :=
        match Seed params with
        | Some v => with_Seed (Some v) sp
        | None => sp
        end in
      let sp :=
        match Stop params with
        | json.AnyNil => sp
        | v => stop_sequences v sp
        end in
      Ok (sp, Stream params)
  end.

Section Parser.

(** [requtil.RequestIdHeaderKey] *)
Variable RequestIdHeaderKey : string.

(** The message content type of the scheduling package and its
    [PlainText] method. *)
Variable Content : Type.
Variable PlainText : Content -> string.

(** [requtil.ExtractRequestBody] *)
Variable ExtractRequestBody :
  option json.value -> gmap string string ->
  result error (scheduling.LLMRequestBody Content).

(** [proto.Marshal] on a [GenerateRequest]; [None] is its error. *)
Variable proto_Marshal : vllm.GenerateRequest -> option string.

(** The Go type of the token counters of the response messages, declared
    in the generated package (uint32 in the protocol file of the engine).
    The conversions [int(...)] around every use show that it is not
    [int]. *)
Variable counter : GoInt.kind.

Definition ExtractRequestID (headers : gmap string string) (rand : uuid.Reader)
  : string :=
  match headers !! RequestIdHeaderKey with
  | Some reqId => reqId
  | None => uuid.NewString rand
  end.

Definition newline : string := String "010"%char EmptyString.

(** The loop writes into a [strings.Builder], here the string built so
    far. *)
Definition ExtractCombinedPrompt (extractedBody : scheduling.LLMRequestBody Content)
  : result error string :=
  match scheduling.ChatCompletions extractedBody with
  | None => Err NotChatCompletions
  | Some chat =>
      Ok (fold_left
            (fun combinedPrompt msg =>
               combinedPrompt ++ (PlainText (scheduling.Content_ msg) ++ newline))
            (scheduling.Messages chat) EmptyString)
  end.

Definition TranscodeJsonToGrpc (headers : gmap string string)
    (body : option json.value)
    (extractedBody : scheduling.LLMRequestBody Content)
    (rand : uuid.Reader)
  : result error vllm.GenerateRequest :=
  let RequestId := ExtractRequestID headers rand in
  prompt ← ExtractCombinedPrompt extractedBody;
  let Input := Some (vllm.GenerateRequest_Text prompt) in
  '(samplingParams, stream) ← ParseSamplingParams body;
  if stream : bool then Err StreamingNotImplemented
  else
    Ok {| vllm.RequestId := RequestId; vllm.Input := Input;
          vllm.SamplingParams_ := Some samplingParams;
          vllm.Stream := stream |}.

Definition ParseRequest (headers : gmap string string)
    (body : option json.value) (rand : uuid.Reader)
  : result error (scheduling.LLMRequestBody Content) :=
  extractedBody ← ExtractRequestBody body headers;
  vllmReq ← TranscodeJsonToGrpc headers body extractedBody rand;
  match proto_Marshal vllmReq with
  | None => Err MarshalProto
  | Some protoBody =>
      Ok {| scheduling.ChatCompletions :=
              scheduling.ChatCompletions extractedBody;
            scheduling.ParsedBody := scheduling.ProtoBytes protoBody |}
  end.

(** The response body is given by what [proto.Unmarshal] reads in it:
    [None] when it returns an error. *)
Definition ParseResponse (body : option vllm.GenerateResponse)
  : result error payloadprocess.ParsedResponse :=
  match body with
  | None => Err UnmarshalGenerateResponse
  | Some resp =>
      match vllm.GetComplete resp with
      | None => Err NoCompleteBlock
      | Some complete =>
          let usage :=
            {| requestcontrol.PromptTokens :=
                 GoInt.int (vllm.Complete_PromptTokens complete);
               requestcontrol.CompletionTokens :=
                 GoInt.int (vllm.Complete_CompletionTokens complete);
               requestcontrol.TotalTokens :=
                 GoInt.int
                   (GoInt.add counter
                      (vllm.Complete_PromptTokens complete)
                      (vllm.Complete_CompletionTokens complete)) |} in
          Ok {| payloadprocess.Usage := Some usage |}
      end
  end.

Definition ParseStreamResponse (chunk : option vllm.GenerateResponse)
  : result error payloadprocess.ParsedResponse :=
  match chunk with
  | None => Err UnmarshalChunk
  | Some resp =>
      match vllm.GetComplete resp with
      | Some complete =>
          let usage :=
            {| requestcontrol.PromptTokens :=
                 GoInt.int (vllm.Complete_PromptTokens complete);
               requestcontrol.CompletionTokens :=
                 GoInt.int (vllm.Complete_CompletionTokens complete);
               requestcontrol.TotalTokens :=
                 GoInt.int
                   (GoInt.add counter
                      (vllm.Complete_PromptTokens complete)
                      (vllm.Complete_CompletionTokens complete)) |} in
          Ok {| payloadprocess.Usage := Some usage |}
      | None =>
          match vllm.GetChunk resp with
          | Some ch =>
              Ok {| payloadprocess.Usage :=
                      Some
                        {| requestcontrol.PromptTokens :=
                             GoInt.int (vllm.Chunk_PromptTokens ch);
                           requestcontrol.CompletionTokens :=
                             GoInt.int (vllm.Chunk_CompletionTokens ch);
                           requestcontrol.TotalTokens :=
                             GoInt.int
                               (GoInt.add counter
                                  (vllm.Chunk_PromptTokens ch)
                                  (vllm.Chunk_CompletionTokens ch)) |} |}
          | None => Err NoUsageInChunk
          end
      end
  end.

End Parser.

End vllm_grpc.

(** ** openai.go: the pass-through parser *)

Module resputil.

(** What [ExtractUsageStreaming] returns; only [Usage] is read here. *)
Record ResponseBody : Type := {
  Usage : option requestcontrol.Usage
}.

End resputil.

Module openai.

Section Parser.

Variable Content : Type.

(** [requtil.ExtractRequestBody] *)
Variable ExtractRequestBody :
  option json.value -> gmap string string ->
  result error (scheduling.LLMRequestBody Content).

(** [resputil.ExtractUsage]: Go's pair of a usage pointer and an error,
    either of which can be nil. *)
Variable ExtractUsage : string -> option requestcontrol.Usage * option error.

(** [resputil.ExtractUsageStreaming] *)
Variable ExtractUsageStreaming : string -> resputil.ResponseBody.

(** [json.Unmarshal(body, &bodyMap)] into [map[string]any]: the members
    of an object, a later duplicate replacing an earlier one; null leaves
    the map empty; anything else is an error. *)
Definition Unmarshal_bodyMap (body : option json.value)
  : option (gmap string json.any) :=
  match body with
  | Some (json.JObject _ as j) =>
      match json.valueInterface j with
      | Some (json.AnyMap m) => Some m
      | _ => None
      end
  | Some json.JNull => Some ∅
  | _ => None
  end.

Definition ParseRequest (headers : gmap string string)
    (body : option json.value)
  : result error (scheduling.LLMRequestBody Content) :=
  match Unmarshal_bodyMap body with
  | None => Err UnmarshalBodyMap
  | Some bodyMap =>
      extractedBody ← ExtractRequestBody body headers;
      Ok {| scheduling.ChatCompletions :=
              scheduling.ChatCompletions extractedBody;
            scheduling.ParsedBody := scheduling.BodyMap bodyMap |}
  end.

(** The result is Go's pair: [(nil, err)] on the guarded path, whatever
    [err] is. *)
Definition ParseResponse (body : string)
  : option payloadprocess.ParsedResponse * option error :=
  let '(usage, err) := ExtractUsage body in
  match err, usage with
  | Some _, _ | _, None => (None, err)
  | None, Some _ => (Some {| payloadprocess.Usage := usage |}, None)
  end.

Definition ParseStreamResponse (chunk : string)
  : option payloadprocess.ParsedResponse * option error :=
  let responseBody := ExtractUsageStreaming chunk in
  match resputil.Usage responseBody with
  | None => (None, Some NoUsageInStreamResponse)
  | Some _ =>
      (Some {| payloadprocess.Usage := resputil.Usage responseBody |}, None)
  end.

End Parser.

End openai.

(** ** Vocabulary of the statements *)

Import json.

#[global] Instance field_eq_dec : EqDecision vllm_grpc.field.
Proof. solve_decision. Defined.

(** The member of an object that decides field [f]: the last one whose key
    the decoder maps to [f]. *)
Fixpoint lookup_field (f : vllm_grpc.field) (ms : list (string * value))
  : option value :=
  match ms with
  | [] => None
  | (key, v) :: ms' =>
      match lookup_field f ms' with
      | Some w => Some w
      | None =>
          if bool_decide (vllm_grpc.field_of_key key = Some f)
          then Some v else None
      end
  end.

(** A key that is absent, or present with the value null. *)
Definition absent_or_null (o : option value) : Prop :=
  o = None \/ o = Some JNull.

(** The string elements of an array, in array order. *)
Definition strings_of (elems : list value) : list string :=
  omap (fun v => match v with JString s => Some s | _ => None end) elems.

(** The content of a field of [samplingParams], whatever its type. *)
Inductive field_value : Type :=
| VInt (x : option Z)
| VFloat (x : option spec_float)
| VBool (b : bool)
| VAny (a : any).

Definition get (f : vllm_grpc.field) (p : vllm_grpc.samplingParams) : field_value :=
  match f with
  | vllm_grpc.FMaxTokens => VInt (vllm_grpc.MaxTokens p)
  | vllm_grpc.FTemperature => VFloat (vllm_grpc.Temperature p)
  | vllm_grpc.FTopP => VFloat (vllm_grpc.TopP p)
  | vllm_grpc.FFrequencyPenalty => VFloat (vllm_grpc.FrequencyPenalty p)
  | vllm_grpc.FPresencePenalty => VFloat (vllm_grpc.PresencePenalty p)
  | vllm_grpc.FN => VInt (vllm_grpc.N p)
  | vllm_grpc.FSeed => VInt (vllm_grpc.Seed p)
  | vllm_grpc.FStream => VBool (vllm_grpc.Stream p)
  | vllm_grpc.FStop => VAny (vllm_grpc.Stop p)
  end.

(** Messages whose content is a plain string, and a chat-completions body
    made of them. *)
Definition text_message (role content : string) : scheduling.Message string :=
  {| scheduling.Role := role; scheduling.Content_ := content |}.

Definition chat_body (msgs : list (scheduling.Message string))
  : scheduling.LLMRequestBody string :=
  {| scheduling.ChatCompletions := Some {| scheduling.Messages := msgs |};
     scheduling.ParsedBody := scheduling.NoParsedBody |}.

(** A body that carries no chat-completions view. *)
Definition other_body : scheduling.LLMRequestBody string :=
  {| scheduling.ChatCompletions := None;
     scheduling.ParsedBody := scheduling.NoParsedBody |}.

(** A unary or streamed response that carries a [complete] section. *)
Definition complete_response (p c : Z) : option vllm.GenerateResponse :=
  Some {| vllm.Response :=
            Some (vllm.GenerateResponse_Complete
                    {| vllm.Complete_PromptTokens := p;
                       vllm.Complete_CompletionTokens := c;
                       vllm.Complete_FinishReason := "stop" |}) |}.

(** A streamed response that carries a [chunk] section. *)
Definition chunk_response (p c : Z) : option vllm.GenerateResponse :=
  Some {| vllm.Response :=
            Some (vllm.GenerateResponse_Chunk
                    {| vllm.Chunk_PromptTokens := p;
                       vllm.Chunk_CompletionTokens := c |}) |}.

Definition usage_response (p c t : Z) : payloadprocess.ParsedResponse :=
  {| payloadprocess.Usage :=
       Some {| requestcontrol.PromptTokens := p;
               requestcontrol.CompletionTokens := c;
               requestcontrol.TotalTokens := t |} |}.

(** The strings among the elements of a decoded slice, in order. *)
Definition any_strings (items : list any) : list string :=
  omap (fun a => match a with AnyString s => Some s | _ => None end) items.

(** The stop sequences a decoded [stop] value stands for. *)
Definition stop_of (a : any) : list string :=
  match a with
  | AnyString s => [s]
  | AnySlice items => any_strings items
  | _ => []
  end.

(** The defaulting policy in one piece: every field of the message is the
    decoded field when that was set, else its default; integer fields are
    cut to 32 bits. *)
Definition sampling_of (params : vllm_grpc.samplingParams) : vllm.SamplingParams :=
  {| vllm.Temperature := vllm_grpc.Temperature params;
     vllm.TopP := default vllm.float32_1 (vllm_grpc.TopP params);
     vllm.FrequencyPenalty :=
       default vllm.float32_0 (vllm_grpc.FrequencyPenalty params);
     vllm.PresencePenalty :=
       default vllm.float32_0 (vllm_grpc.PresencePenalty params);
     vllm.MaxTokens :=
       Some (default 1024 (GoInt.uint32 <$> vllm_grpc.MaxTokens params));
     vllm.Stop := stop_of (vllm_grpc.Stop params);
     vllm.N := default 1 (GoInt.uint32 <$> vllm_grpc.N params);
     vllm.Seed := vllm_grpc.Seed params |}.

(** The stop sequences of a result of ParseSamplingParams. *)
Definition stop_result (r : result error (vllm.SamplingParams * bool))
  : option (list string) :=
  match r with
  | Ok (sp, _) => Some (vllm.Stop sp)
  | Err _ => None
  end.

(** The stream flag a result of ParseSamplingParams carries. *)
Definition stream_result (r : result error (vllm.SamplingParams * bool))
  : option bool :=
  match r with
  | Ok (_, stream) => Some stream
  | Err _ => None
  end.

(** The values a byte of a UUID takes. *)
Definition is_byte (b : Z) : Prop := 0 <= b < 256.

(** The last member of an object whose key is exactly [key]. *)
Fixpoint last_member (key : string) (ms : list (string * value)) : option value :=
  match ms with
  | [] => None
  | (k, v) :: ms' =>
      match last_member key ms' with
      | Some w => Some w
      | None => if bool_decide (k = key) then Some v else None
      end
  end.

(** A float that is a number: a zero or a finite value, neither an infinity
    nor a NaN. *)
Definition is_number (f : spec_float) : Prop :=
  match f with
  | S754_zero _ | S754_finite _ _ _ => True
  | S754_infinity _ | S754_nan => False
  end.

(** A body the decoder can store in a map of interfaces: null, or an
    object each of whose member values can be stored in an interface. *)
Definition storable_body (body : option value) : Prop :=
  body = Some JNull \/
  exists ms, body = Some (JObject ms) /\
             Forall (fun kv => is_Some (valueInterface kv.2)) ms.

(** The message built for a body that sets no sampling field. *)
Definition default_sampling : vllm.SamplingParams :=
  {| vllm.Temperature := None; vllm.TopP := vllm.float32_1;
     vllm.FrequencyPenalty := vllm.float32_0;
     vllm.PresencePenalty := vllm.float32_0;
     vllm.MaxTokens := Some 1024; vllm.Stop := [];
     vllm.N := 1; vllm.Seed := None |}.

(** The request TranscodeJsonToGrpc assembles on success. *)
Definition generate_request (id prompt : string) (sp : vllm.SamplingParams)
  : vllm.GenerateRequest :=
  {| vllm.RequestId := id;
     vllm.Input := Some (vllm.GenerateRequest_Text prompt);
     vllm.SamplingParams_ := Some sp;
     vllm.Stream := false |}.

(** No number the value holds, at any depth, is beyond the float64 range:
    [strconv.ParseFloat(s, 64)] reads each of them. *)
Fixpoint numbers_fit (j : value) : bool :=
  match j with
  | JNumber lit =>
      match strconv.ParseFloat lit 64 with Some _ => true | None => false end
  | JArray elems => forallb numbers_fit elems
  | JObject members =>
      (fix all (ms : list (string * value)) : bool :=
         match ms with
         | [] => true
         | (_, v) :: ms' => numbers_fit v && all ms'
         end) members
  | _ => true
  end.

(** * Properties *)

(** ** Token usage of the transcoding parser *)

Section Usage.

Import GoInt.

Lemma int_id (z : Z) : - 2 ^ 63 <= z < 2 ^ 63 -> int z = z.
Proof.
  intros Hz. unfold int, wrap_signed.
  rewrite Z.mod_small; lia.
Qed.

Lemma wrap_id (k : kind) (z : Z) : in_range k z -> wrap k z = z.
Proof.
  unfold in_range. destruct k; simpl; intros Hz;
    unfold wrap_unsigned, wrap_signed; rewrite Z.mod_small; lia.
Qed.

(** Whatever the counter type, the total is the sum of the two counts as
    long as that sum fits the counter type and the counts fit [int]. *)
Lemma total_when_sum_fits (k : kind) (p c : Z) :
  in_range k p -> in_range k c -> in_range k (p + c) ->
  p + c < 2 ^ 63 ->
  int (add k p c) = int p + int c.
Proof.
  intros Hp Hc Hs Hlt. unfold add. rewrite wrap_id by assumption.
  assert (- 2 ^ 63 <= p /\ - 2 ^ 63 <= c) as [Hp' Hc'].
  { unfold in_range in *. destruct k; simpl in *; lia. }
  assert (p < 2 ^ 63 /\ c < 2 ^ 63) as [Hp'' Hc''].
  { unfold in_range in *. destruct k; simpl in *; lia. }
  rewrite !int_id; unfold in_range in *; destruct k; simpl in *; lia.
Qed.

(** With a 64-bit counter type the total always agrees with Go's [int]
    addition of the two counts: the wrap-around happens only with the 32-bit
    types. *)
Lemma total_with_64_bit_counters (k : kind) (p c : Z) :
  k = Uint64 \/ k = Int64 ->
  int (add k p c) = int_add (int p) (int c).
Proof.
  intros Hk. unfold int_add, int, add, wrap_signed.
  change (64 - 1) with 63.
  assert (HM : 2 ^ 64 = 2 * 2 ^ 63) by reflexivity.
  assert (HH : 0 < 2 ^ 63) by reflexivity.
  generalize dependent (2 ^ 63). intros H HM HH.
  assert (Hw : (wrap k (p + c) + H) mod 2 ^ 64 = (p + c + H) mod 2 ^ 64).
  { destruct Hk as [-> | ->]; simpl;
      unfold wrap_unsigned, wrap_signed; change (64 - 1) with 63.
    - rewrite Zplus_mod_idemp_l. reflexivity.
    - assert (2 ^ 63 = H) as -> by lia.
      rewrite Z.sub_add. apply Z.mod_mod. lia. }
  rewrite Hw. f_equal.
  pose proof (Z.div_mod (p + H) (2 ^ 64) ltac:(lia)) as Hp.
  pose proof (Z.div_mod (c + H) (2 ^ 64) ltac:(lia)) as Hc.
  set (q1 := (p + H) / 2 ^ 64) in *. set (q2 := (c + H) / 2 ^ 64) in *.
  replace ((p + H) mod 2 ^ 64 - H + ((c + H) mod 2 ^ 64 - H) + H)
    with (p + c + H + (- q1 - q2) * 2 ^ 64) by lia.
  rewrite Z.mod_add by lia. reflexivity.
Qed.

(** With unsigned 32-bit counters the total is the sum of the two counts
    exactly when that sum is below 2^32. *)
Lemma total_with_uint32_counters (p c : Z) :
  in_range Uint32 p -> in_range Uint32 c ->
  int (add Uint32 p c) = int p + int c <-> p + c < 2 ^ 32.
Proof.
  unfold in_range, add. simpl. unfold wrap_unsigned. intros Hp Hc.
  pose proof (Z.mod_pos_bound (p + c) (2 ^ 32) ltac:(lia)) as Hm.
  rewrite !int_id by lia. split.
  - intros Heq. lia.
  - intros Hlt. apply Z.mod_small. lia.
Qed.

End Usage.

Lemma parse_response_when_sum_fits (k : GoInt.kind) (p c : Z) :
  GoInt.in_range k p -> GoInt.in_range k c -> GoInt.in_range k (p + c) ->
  p + c < 2 ^ 63 ->
  vllm_grpc.ParseResponse k (complete_response p c)
  = Ok (usage_response (GoInt.int p) (GoInt.int c) (GoInt.int p + GoInt.int c)).
Proof.
  intros Hp Hc Hs Hlt. unfold vllm_grpc.ParseResponse, complete_response,
    usage_response. simpl.
  rewrite total_when_sum_fits by assumption. reflexivity.
Qed.

(** With signed 32-bit counters the total wraps as well, to a negative
    number. *)
Lemma total_wraps_with_int32_counters :
  vllm_grpc.ParseResponse GoInt.Int32 (complete_response 2147483647 1)
  = Ok (usage_response 2147483647 1 (-2147483648)).
Proof. reflexivity. Qed.

(** C1. The total is the sum of the two counters formed at the counters' own
    32-bit type and widened afterwards. At prompt_tokens = 4294967295 and
    completion_tokens = 1, both within the counter type, ParseResponse and
    ParseStreamResponse (on a complete section and on a chunk section) return
    TotalTokens = 0, while PromptTokens + CompletionTokens is 4294967296. *)
Theorem C1_total_tokens_wrap_at_32_bits :
  GoInt.in_range GoInt.Uint32 4294967295 /\ GoInt.in_range GoInt.Uint32 1 /\
  vllm_grpc.ParseResponse GoInt.Uint32 (complete_response 4294967295 1)
  = Ok (usage_response 4294967295 1 0) /\
  vllm_grpc.ParseStreamResponse GoInt.Uint32 (complete_response 4294967295 1)
  = Ok (usage_response 4294967295 1 0) /\
  vllm_grpc.ParseStreamResponse GoInt.Uint32 (chunk_response 4294967295 1)
  = Ok (usage_response 4294967295 1 0) /\
  GoInt.int_add 4294967295 1 = 4294967296.
Proof.
  unfold GoInt.in_range. simpl.
  repeat split; try lia; reflexivity.
Qed.

(** C7. ParseResponse fails with the unmarshalling error, a MalformedInput,
    on bytes that do not decode; with the missing-Complete error, an
    IncompleteResponse, on a message without a complete section; and returns
    Usage{10,20,30} for prompt_tokens = 10 and completion_tokens = 20. For
    prompt_tokens = 4294967295 and completion_tokens = 1 it returns
    Usage{4294967295, 1, 0}, not Usage{p, c, p+c}. *)
Theorem C7_parse_response_outcomes :
  (forall k, vllm_grpc.ParseResponse k None = Err UnmarshalGenerateResponse) /\
  category_of UnmarshalGenerateResponse = Some MalformedInput /\
  (forall k,
      vllm_grpc.ParseResponse k (Some {| vllm.Response := None |})
      = Err NoCompleteBlock) /\
  (forall k ch,
      vllm_grpc.ParseResponse k
        (Some {| vllm.Response := Some (vllm.GenerateResponse_Chunk ch) |})
      = Err NoCompleteBlock) /\
  category_of NoCompleteBlock = Some IncompleteResponse /\
  (forall k,
      vllm_grpc.ParseResponse k (complete_response 10 20)
      = Ok (usage_response 10 20 30)) /\
  vllm_grpc.ParseResponse GoInt.Uint32 (complete_response 4294967295 1)
  = Ok (usage_response 4294967295 1 0).
Proof.
  repeat split; try reflexivity.
  intros k. destruct k; reflexivity.
Qed.

(** ** Prompt combination *)

#[local] Arguments String.append !s1 s2 : simpl nomatch.

Lemma string_app_nil_r (s : string) : (s ++ "")%string = s.
Proof. induction s as [|a s IH]; simpl; [reflexivity | now rewrite IH]. Qed.

Lemma string_app_assoc (s1 s2 s3 : string) :
  ((s1 ++ s2) ++ s3)%string = (s1 ++ (s2 ++ s3))%string.
Proof. induction s1 as [|a s1 IH]; simpl; [reflexivity | now rewrite IH]. Qed.

Lemma string_length_app (s1 s2 : string) :
  String.length (s1 ++ s2)%string = (String.length s1 + String.length s2)%nat.
Proof. induction s1 as [|a s1 IH]; simpl; [reflexivity | now rewrite IH]. Qed.

(** The builder loop started on [acc] appends the lines of the messages to
    it. *)
Lemma builder_loop {Content : Type} (PlainText : Content -> string)
    (msgs : list (scheduling.Message Content)) (acc : string) :
  fold_left
    (fun combinedPrompt msg =>
       (combinedPrompt
        ++ (PlainText (scheduling.Content_ msg) ++ vllm_grpc.newline))%string)
    msgs acc
  = (acc ++ fold_right String.append ""
              (map (fun msg => (PlainText (scheduling.Content_ msg)
                                ++ vllm_grpc.newline)%string) msgs))%string.
Proof.
  revert acc. induction msgs as [|m msgs IH]; intros acc; simpl.
  - now rewrite string_app_nil_r.
  - rewrite IH. now rewrite string_app_assoc.
Qed.

(** C6. On a body with a chat-completion view the combined prompt is the
    concatenation, in message order, of each message's plain text followed by
    a newline; on a body without that view prompt combination fails with the
    not-a-chat-completions error, an UnsupportedInput. The single message
    "Hello" gives "Hello" followed by a newline. *)
Theorem C6_combined_prompt (Content : Type) (PlainText : Content -> string)
    (msgs : list (scheduling.Message Content)) (pb : scheduling.parsed_body) :
  vllm_grpc.ExtractCombinedPrompt Content PlainText
    {| scheduling.ChatCompletions := Some {| scheduling.Messages := msgs |};
       scheduling.ParsedBody := pb |}
  = Ok (fold_right String.append ""
          (map (fun msg => (PlainText (scheduling.Content_ msg)
                            ++ vllm_grpc.newline)%string) msgs)) /\
  vllm_grpc.ExtractCombinedPrompt Content PlainText
    {| scheduling.ChatCompletions := None; scheduling.ParsedBody := pb |}
  = Err NotChatCompletions /\
  category_of NotChatCompletions = Some UnsupportedInput /\
  vllm_grpc.ExtractCombinedPrompt string (fun c => c)
    (chat_body [text_message "user" "Hello"])
  = Ok (String "H" (String "e" (String "l" (String "l" (String "o"
          (String "010" EmptyString)))))) /\
  vllm_grpc.ExtractCombinedPrompt string (fun c => c)
    (chat_body [text_message "user" "Hello World!"])
  = Ok ("Hello World!" ++ vllm_grpc.newline)%string.
Proof.
  repeat split; try reflexivity.
  unfold vllm_grpc.ExtractCombinedPrompt. simpl.
  rewrite builder_loop. reflexivity.
Qed.

(** ** Request identifier *)

Lemma hex_Encode_length (src : list Z) :
  String.length (uuid.hex_Encode src) = (2 * length src)%nat.
Proof. induction src as [|b src IH]; simpl; [reflexivity | rewrite IH; lia]. Qed.

Lemma NewRandom_length (r : uuid.Reader) : length (uuid.NewRandom r) = 16%nat.
Proof. unfold uuid.NewRandom. rewrite !length_alter. reflexivity. Qed.

Lemma NewString_length (r : uuid.Reader) :
  String.length (uuid.NewString r) = 36%nat.
Proof.
  unfold uuid.NewString, uuid.String_.
  pose proof (NewRandom_length r) as Hlen.
  rewrite !string_length_app, !hex_Encode_length.
  rewrite !length_firstn, !length_skipn, Hlen. reflexivity.
Qed.

Lemma NewString_not_empty (r : uuid.Reader) : uuid.NewString r <> "".
Proof.
  intros Heq. pose proof (NewString_length r) as Hlen.
  rewrite Heq in Hlen. discriminate Hlen.
Qed.

(** *** Distinct UUID values have distinct text forms *)

Lemma hexdigit_of_nat_inj (a b : nat) :
  (a < 16)%nat -> (b < 16)%nat ->
  uuid.hexdigit (Z.of_nat a) = uuid.hexdigit (Z.of_nat b) -> a = b.
Proof.
  intros Ha Hb.
  do 16 (destruct a as [|a];
         [ do 16 (destruct b as [|b];
                  [ first [ reflexivity
                          | intros H; vm_compute in H; discriminate H ] |]);
           lia |]).
  lia.
Qed.

Lemma hexdigit_inj (n m : Z) :
  0 <= n < 16 -> 0 <= m < 16 ->
  uuid.hexdigit n = uuid.hexdigit m -> n = m.
Proof.
  intros Hn Hm Heq.
  rewrite <- (Z2Nat.id n), <- (Z2Nat.id m) in Heq by lia.
  apply hexdigit_of_nat_inj in Heq; lia.
Qed.

Lemma hex_byte_inj (b b' : Z) :
  is_byte b -> is_byte b' ->
  uuid.hexdigit (Z.shiftr b 4) = uuid.hexdigit (Z.shiftr b' 4) ->
  uuid.hexdigit (Z.land b 15) = uuid.hexdigit (Z.land b' 15) ->
  b = b'.
Proof.
  unfold is_byte. intros Hb Hb'.
  rewrite !Z.shiftr_div_pow2 by lia.
  change 15 with (Z.ones 4). rewrite !Z.land_ones by lia.
  change (2 ^ 4) with 16.
  intros Hhi Hlo.
  apply hexdigit_inj in Hhi;
    [| split; [apply Z.div_pos | apply Z.div_lt_upper_bound]; lia
     | split; [apply Z.div_pos | apply Z.div_lt_upper_bound]; lia].
  apply hexdigit_inj in Hlo; [| apply Z.mod_pos_bound; lia ..].
  rewrite (Z.div_mod b 16), (Z.div_mod b' 16) by lia.
  rewrite Hhi, Hlo. reflexivity.
Qed.

Lemma hex_Encode_inj (l : list Z) :
  forall l',
    length l = length l' -> Forall is_byte l -> Forall is_byte l' ->
    uuid.hex_Encode l = uuid.hex_Encode l' -> l = l'.
Proof.
  induction l as [|b l IH]; intros [|b' l'] Hlen Hl Hl' Heq;
    try discriminate; [reflexivity|].
  simpl in Heq. injection Heq as Hhi Hlo Hrest.
  inversion Hl; inversion Hl'; subst.
  f_equal.
  - apply hex_byte_inj; assumption.
  - apply IH; auto.
Qed.

Lemma string_app_inj (s1 s2 t1 t2 : string) :
  String.length s1 = String.length s2 ->
  (s1 ++ t1)%string = (s2 ++ t2)%string -> s1 = s2 /\ t1 = t2.
Proof.
  revert s2. induction s1 as [|a s1 IH]; intros [|a' s2] Hlen Heq;
    try discriminate; simpl in *; [auto|].
  injection Heq as -> Heq. injection Hlen as Hlen.
  destruct (IH _ Hlen Heq) as [-> ->]. auto.
Qed.

Lemma hex_piece_inj (l l' : list Z) (t t' : string) :
  length l = length l' -> Forall is_byte l -> Forall is_byte l' ->
  (uuid.hex_Encode l ++ t)%string = (uuid.hex_Encode l' ++ t')%string ->
  l = l' /\ t = t'.
Proof.
  intros Hlen Hl Hl' Heq.
  apply string_app_inj in Heq as [Hh Ht].
  - split; [|assumption]. apply hex_Encode_inj; assumption.
  - rewrite !hex_Encode_length, Hlen. reflexivity.
Qed.

Lemma String__inj (u u' : list Z) :
  length u = 16%nat -> length u' = 16%nat ->
  Forall is_byte u -> Forall is_byte u' ->
  uuid.String_ u = uuid.String_ u' -> u = u'.
Proof.
  intros Hu Hu' Hb Hb' Heq. unfold uuid.String_ in Heq.
  assert (Hpart : forall k n (v : list Z), Forall is_byte v ->
                    Forall is_byte (firstn n (skipn k v))).
  { intros k n v Hv. apply Forall_take, Forall_drop, Hv. }
  assert (Hlen : forall k n, length (firstn n (skipn k u))
                             = length (firstn n (skipn k u'))).
  { intros k n. rewrite !length_firstn, !length_skipn, Hu, Hu'. reflexivity. }
  apply (hex_piece_inj (firstn 4 (skipn 0 u)) (firstn 4 (skipn 0 u'))) in Heq
    as [H1 Heq]; auto.
  simpl in Heq. injection Heq as Heq.
  apply hex_piece_inj in Heq as [H2 Heq]; auto.
  simpl in Heq. injection Heq as Heq.
  apply hex_piece_inj in Heq as [H3 Heq]; auto.
  simpl in Heq. injection Heq as Heq.
  apply hex_piece_inj in Heq as [H4 Heq]; auto.
  simpl in Heq. injection Heq as Heq.
  apply hex_Encode_inj in Heq;
    [| rewrite !length_skipn, Hu, Hu'; reflexivity
     | apply Forall_drop; assumption | apply Forall_drop; assumption].
  change (skipn 0 u) with u in H1. change (skipn 0 u') with u' in H1.
  rewrite <- (firstn_skipn 4 u), <- (firstn_skipn 4 u').
  rewrite <- (firstn_skipn 2 (skipn 4 u)), <- (firstn_skipn 2 (skipn 4 u')).
  rewrite <- (firstn_skipn 2 (skipn 2 (skipn 4 u))),
          <- (firstn_skipn 2 (skipn 2 (skipn 4 u'))).
  rewrite <- (firstn_skipn 2 (skipn 2 (skipn 2 (skipn 4 u)))),
          <- (firstn_skipn 2 (skipn 2 (skipn 2 (skipn 4 u')))).
  rewrite !skipn_skipn. simpl Nat.add.
  congruence.
Qed.

Lemma byte_of_low_bits (z : Z) :
  0 <= z -> (forall i, 8 <= i -> Z.testbit z i = false) -> is_byte z.
Proof.
  intros Hz Hbits. split; [assumption|].
  destruct (Z.lt_ge_cases z 256) as [|Hge]; [assumption|].
  exfalso.
  assert (Hpos : 0 < z) by lia.
  pose proof (Z.bit_log2 _ Hpos) as Hlog.
  rewrite Hbits in Hlog; [discriminate|].
  apply (Z.log2_le_mono 256) in Hge. change (Z.log2 256) with 8 in Hge.
  assumption.
Qed.

(** Setting the version and variant bits keeps a byte a byte. *)
Lemma masked_byte (b mask bits : Z) :
  0 <= mask < 256 -> 0 <= bits < 256 ->
  is_byte (Z.lor (Z.land b mask) bits).
Proof.
  intros Hmask Hbits. apply byte_of_low_bits.
  - apply Z.lor_nonneg. split; [|lia]. apply Z.land_nonneg. right. lia.
  - intros i Hi. rewrite Z.lor_spec, Z.land_spec.
    assert (Hhigh : forall z, 0 <= z < 256 -> Z.testbit z i = false).
    { intros z Hz. destruct (Z.eq_dec z 0) as [->|Hnz].
      - apply Z.bits_0.
      - apply Z.bits_above_log2; [lia|].
        assert (Z.log2 z < 8); [|lia].
        apply Z.log2_lt_pow2; lia. }
    rewrite (Hhigh mask Hmask), (Hhigh bits Hbits), andb_false_r.
    reflexivity.
Qed.

Lemma NewRandom_bytes (r : uuid.Reader) : Forall is_byte (uuid.NewRandom r).
Proof.
  unfold uuid.NewRandom.
  apply Forall_alter; [apply Forall_alter|].
  - apply List.Forall_forall. intros b Hb.
    apply in_map_iff in Hb as (i & <- & _).
    apply Z.mod_pos_bound. lia.
  - intros b _ _. apply masked_byte; lia.
  - intros b _ _. apply masked_byte; lia.
Qed.

(** Two draws that yield the same identifier drew the same UUID. *)
Lemma NewString_inj (r1 r2 : uuid.Reader) :
  uuid.NewString r1 = uuid.NewString r2 -> uuid.NewRandom r1 = uuid.NewRandom r2.
Proof.
  apply String__inj; auto using NewRandom_length, NewRandom_bytes.
Qed.

(** C2 (as amended). The request identifier is the value of the request-ID
    header whenever the header is present, also when that value is the empty
    string, and otherwise the 36 characters of a newly drawn random UUID. It
    is not empty unless the header is present with an empty value, and it is
    what TranscodeJsonToGrpc places in the GenerateRequest. Two generated
    identifiers are equal only when the two UUIDs drawn are. *)
Theorem C2_request_id (key : string) (headers : gmap string string)
    (rand : uuid.Reader) :
  (forall v, headers !! key = Some v ->
             vllm_grpc.ExtractRequestID key headers rand = v) /\
  (headers !! key = None ->
   vllm_grpc.ExtractRequestID key headers rand = uuid.NewString rand /\
   String.length (vllm_grpc.ExtractRequestID key headers rand) = 36%nat) /\
  (headers !! key <> Some "" ->
   vllm_grpc.ExtractRequestID key headers rand <> "") /\
  (forall Content PlainText body extractedBody req,
      vllm_grpc.TranscodeJsonToGrpc key Content PlainText headers body
        extractedBody rand = Ok req ->
      vllm.RequestId req = vllm_grpc.ExtractRequestID key headers rand) /\
  (forall rand',
      headers !! key = None ->
      vllm_grpc.ExtractRequestID key headers rand
      = vllm_grpc.ExtractRequestID key headers rand' ->
      uuid.NewRandom rand = uuid.NewRandom rand').
Proof.
  unfold vllm_grpc.ExtractRequestID. split; [|split; [|split; [|split]]].
  - intros v ->. reflexivity.
  - intros ->. split; [reflexivity | apply NewString_length].
  - intros Hne. destruct (headers !! key) as [v|] eqn:Hv.
    + intros ->. now apply Hne.
    + apply NewString_not_empty.
  - intros Content PlainText body extractedBody req.
    unfold vllm_grpc.TranscodeJsonToGrpc.
    destruct (vllm_grpc.ExtractCombinedPrompt Content PlainText extractedBody)
      as [prompt|e]; simpl; [|discriminate].
    destruct (vllm_grpc.ParseSamplingParams body) as [[sp st]|e]; simpl;
      [|discriminate].
    destruct st; [discriminate|].
    intros [= <-]. reflexivity.
  - intros rand' ->. apply NewString_inj.
Qed.

Lemma C2_request_id_witness :
  vllm_grpc.ExtractRequestID "x-request-id"
    {[ "x-request-id" := "req-42" ]} (fun _ => 0) = "req-42" /\
  vllm_grpc.ExtractRequestID "x-request-id" ∅ (fun _ => 0)
  = "00000000-0000-4000-8000-000000000000" /\
  vllm_grpc.ExtractRequestID "x-request-id"
    {[ "x-request-id" := "req-42" ]} (fun _ => 0) <> "".
Proof.
  split; [|split].
  - apply (proj1 (C2_request_id "x-request-id"
                    {[ "x-request-id" := "req-42" ]} (fun _ => 0))).
    reflexivity.
  - apply (proj1 (proj2 (C2_request_id "x-request-id" ∅ (fun _ => 0)))).
    reflexivity.
  - apply (proj1 (proj2 (proj2 (C2_request_id "x-request-id"
                    {[ "x-request-id" := "req-42" ]} (fun _ => 0))))).
    vm_compute. discriminate.
Defined.

(** C2 as stated fails: a request-ID header that is present with an empty
    value is returned as it is, and the GenerateRequest carries an empty
    identifier. *)
Lemma C2_empty_header_gives_empty_id :
  ({[ "x-request-id" := "" ]} : gmap string string) !! "x-request-id" = Some "" /\
  vllm_grpc.ExtractRequestID "x-request-id" {[ "x-request-id" := "" ]}
    (fun _ => 0) = "" /\
  exists req,
    vllm_grpc.TranscodeJsonToGrpc "x-request-id" string (fun c => c)
      {[ "x-request-id" := "" ]}
      (Some (JObject [("messages", JArray [])]))
      (chat_body [text_message "user" "Hello"]) (fun _ => 0) = Ok req /\
    vllm.RequestId req = "".
Proof.
  split; [reflexivity|]. split; [reflexivity|].
  eexists. split; reflexivity.
Qed.

(** ** Usage of the pass-through parser *)

(** What the two response operations do with the answer of the
    collaborator. A stream chunk without usage is an IncompleteResponse
    error; an error of the collaborator is passed on; a returned
    ParsedResponse comes without error and carries the usage found. A
    response body with neither usage nor error gives neither a ParsedResponse
    nor an error. *)
Lemma pass_through_usage
    (ExtractUsage : string -> option requestcontrol.Usage * option error)
    (ExtractUsageStreaming : string -> resputil.ResponseBody)
    (body chunk : string) :
  (resputil.Usage (ExtractUsageStreaming chunk) = None ->
   openai.ParseStreamResponse ExtractUsageStreaming chunk
   = (None, Some NoUsageInStreamResponse)) /\
  (ExtractUsage body = (None, None) ->
   openai.ParseResponse ExtractUsage body = (None, None)) /\
  (forall u e, ExtractUsage body = (u, Some e) ->
               openai.ParseResponse ExtractUsage body = (None, Some e)) /\
  (forall r e, openai.ParseResponse ExtractUsage body = (Some r, e) ->
               e = None /\
               exists u, ExtractUsage body = (Some u, None) /\
                         payloadprocess.Usage r = Some u) /\
  (forall r e,
      openai.ParseStreamResponse ExtractUsageStreaming chunk = (Some r, e) ->
      e = None /\
      exists u, resputil.Usage (ExtractUsageStreaming chunk) = Some u /\
                payloadprocess.Usage r = Some u).
Proof.
  unfold openai.ParseResponse, openai.ParseStreamResponse.
  split; [|split; [|split; [|split]]].
  - intros ->. reflexivity.
  - intros ->. reflexivity.
  - intros u e ->. destruct u; reflexivity.
  - intros r e. destruct (ExtractUsage body) as [[u|] [e'|]]; try congruence.
    intros [= <- <-]. eauto.
  - intros r e.
    destruct (resputil.Usage (ExtractUsageStreaming chunk)) as [u|];
      try congruence.
    intros [= <- <-]. eauto.
Qed.

(** C8. With a collaborator that reports neither a usage nor an error,
    ParseResponse returns neither a ParsedResponse nor an error: the guarded
    return hands back the collaborator's nil error, where the claim has an
    IncompleteResponse error. ParseStreamResponse, on a chunk in which the
    collaborator finds no usage, does return an IncompleteResponse error. *)
Theorem C8_parse_response_without_usage_returns_no_error (body chunk : string) :
  openai.ParseResponse (fun _ => (None, None)) body = (None, None) /\
  openai.ParseStreamResponse (fun _ => {| resputil.Usage := None |}) chunk
  = (None, Some NoUsageInStreamResponse) /\
  category_of NoUsageInStreamResponse = Some IncompleteResponse.
Proof. repeat split. Qed.

(** ** Decoding the sampling parameters *)

Section Decoding.

Import vllm_grpc.

(** The type switch on a slice appends the strings of the slice to the stop
    sequences collected so far. *)
Lemma stop_loop (items : list any) (sp : vllm.SamplingParams) :
  fold_left
    (fun sp item =>
       match item with
       | AnyString s => with_Stop (vllm.Stop sp ++ [s]) sp
       | _ => sp
       end) items sp
  = with_Stop (vllm.Stop sp ++ any_strings items) sp.
Proof.
  revert sp. induction items as [|a items IH]; intros sp.
  - simpl. rewrite app_nil_r. destruct sp; reflexivity.
  - cbn [fold_left]. rewrite IH.
    destruct a; try reflexivity.
    unfold with_Stop; simpl. rewrite <- app_assoc. reflexivity.
Qed.

(** The chain of overwrites of ParseSamplingParams computes the defaulting
    policy [sampling_of] on whatever was decoded, and passes the stream flag
    on. *)
Lemma ParseSamplingParams_decoded (body : option value) (params : samplingParams) :
  Unmarshal body = Some params ->
  ParseSamplingParams body = Ok (sampling_of params, Stream params).
Proof.
  intros Hdec. unfold ParseSamplingParams. rewrite Hdec.
  destruct params as [mt te tp fp pp nn se st sto]. unfold sampling_of.
  cbn [MaxTokens Temperature TopP FrequencyPenalty PresencePenalty N Seed
       Stream Stop].
  destruct sto, mt, te, tp, fp, pp, nn, se; try reflexivity;
    cbv zeta; unfold stop_sequences; rewrite stop_loop; reflexivity.
Qed.

Lemma ParseSamplingParams_rejected (body : option value) :
  Unmarshal body = None ->
  ParseSamplingParams body = Err UnmarshalSamplingParams.
Proof. intros Hdec. unfold ParseSamplingParams. now rewrite Hdec. Qed.

(** ParseSamplingParams succeeds exactly when the decoder accepts the
    body. *)
Lemma ParseSamplingParams_Ok_inv (body : option value) sp st :
  ParseSamplingParams body = Ok (sp, st) ->
  exists params, Unmarshal body = Some params /\
                 sp = sampling_of params /\ st = Stream params.
Proof.
  destruct (Unmarshal body) as [params|] eqn:Hdec.
  - rewrite (ParseSamplingParams_decoded _ _ Hdec). intros [= <- <-]. eauto.
  - rewrite (ParseSamplingParams_rejected _ Hdec). discriminate.
Qed.

Lemma ParseSamplingParams_Err_inv (body : option value) e :
  ParseSamplingParams body = Err e ->
  e = UnmarshalSamplingParams /\ Unmarshal body = None.
Proof.
  destruct (Unmarshal body) as [params|] eqn:Hdec.
  - rewrite (ParseSamplingParams_decoded _ _ Hdec). discriminate.
  - rewrite (ParseSamplingParams_rejected _ Hdec). intros [= <-]. auto.
Qed.

(** Storing into one field leaves the others as they were. *)
Lemma store_other (f g : field) (v : value) (q q' : samplingParams) :
  store g v q = Some q' -> f <> g -> get f q' = get f q.
Proof.
  intros Hst Hne. unfold store in Hst.
  destruct g; simplify_option_eq; destruct f; try congruence; reflexivity.
Qed.

(** A field no member of the object is decoded into keeps its value. *)
Lemma decode_members_absent (f : field) (ms : list (string * value)) :
  forall p p',
    decode_members ms p = Some p' ->
    lookup_field f ms = None ->
    get f p' = get f p.
Proof.
  induction ms as [|[key v] ms IH]; intros p p' Hdec Hlk; simpl in *.
  - congruence.
  - destruct (lookup_field f ms) eqn:Hms; [discriminate|].
    case_bool_decide as Hkey; [discriminate|].
    destruct (field_of_key key) as [g|] eqn:Hg.
    + destruct (store g v p) as [p1|] eqn:Hst; simpl in Hdec; [|discriminate].
      rewrite (IH _ _ Hdec eq_refl).
      apply (store_other _ _ _ _ _ Hst). congruence.
    + apply (IH _ _ Hdec eq_refl).
Qed.

(** A field holds what the last member decoded into it stored. *)
Lemma decode_members_present (f : field) (ms : list (string * value)) :
  forall p p' v,
    decode_members ms p = Some p' ->
    lookup_field f ms = Some v ->
    exists q q', store f v q = Some q' /\ get f p' = get f q'.
Proof.
  induction ms as [|[key w] ms IH]; intros p p' v Hdec Hlk; simpl in *.
  - discriminate.
  - destruct (field_of_key key) as [g|] eqn:Hg.
    + destruct (store g w p) as [p1|] eqn:Hst; simpl in Hdec; [|discriminate].
      destruct (lookup_field f ms) as [u|] eqn:Hms.
      * injection Hlk as <-. apply (IH _ _ _ Hdec eq_refl).
      * case_bool_decide as Hkey; [|discriminate].
        injection Hlk as <-. injection Hkey as <-.
        exists p, p1. split; [assumption|].
        apply (decode_members_absent _ _ _ _ Hdec Hms).
    + destruct (lookup_field f ms) as [u|] eqn:Hms.
      * injection Hlk as <-. apply (IH _ _ _ Hdec eq_refl).
      * case_bool_decide; discriminate.
Qed.

End Decoding.

Section Fields.

Import vllm_grpc.

Lemma Unmarshal_object (ms : list (string * value)) :
  Unmarshal (Some (JObject ms)) = decode_members ms samplingParams_zero.
Proof. reflexivity. Qed.

(** What a decoded field holds, read off the member that decides it: the
    zero value when there is none. *)
Ltac decided_by f :=
  let Hdec := fresh "Hdec" in
  let Hlk := fresh "Hlk" in
  let v := fresh "v" in
  intros Hdec;
  destruct (lookup_field f _) as [v|] eqn:Hlk; simpl;
  [ destruct (decode_members_present f _ _ _ _ Hdec Hlk)
      as (q & q' & Hst & Hget);
    unfold store in Hst; simplify_option_eq; congruence
  | pose proof (decode_members_absent f _ _ _ Hdec Hlk) as Hget;
    simpl in Hget; congruence ].

Lemma decoded_MaxTokens ms p :
  decode_members ms samplingParams_zero = Some p ->
  from_option (decode_int 64) (Some None) (lookup_field FMaxTokens ms)
  = Some (MaxTokens p).
Proof. decided_by FMaxTokens. Qed.

Lemma decoded_N ms p :
  decode_members ms samplingParams_zero = Some p ->
  from_option (decode_int 64) (Some None) (lookup_field FN ms) = Some (N p).
Proof. decided_by FN. Qed.

Lemma decoded_Seed ms p :
  decode_members ms samplingParams_zero = Some p ->
  from_option (decode_int 32) (Some None) (lookup_field FSeed ms)
  = Some (Seed p).
Proof. decided_by FSeed. Qed.

Lemma decoded_Temperature ms p :
  decode_members ms samplingParams_zero = Some p ->
  from_option decode_float32 (Some None) (lookup_field FTemperature ms)
  = Some (Temperature p).
Proof. decided_by FTemperature. Qed.

Lemma decoded_TopP ms p :
  decode_members ms samplingParams_zero = Some p ->
  from_option decode_float32 (Some None) (lookup_field FTopP ms)
  = Some (TopP p).
Proof. decided_by FTopP. Qed.

Lemma decoded_FrequencyPenalty ms p :
  decode_members ms samplingParams_zero = Some p ->
  from_option decode_float32 (Some None) (lookup_field FFrequencyPenalty ms)
  = Some (FrequencyPenalty p).
Proof. decided_by FFrequencyPenalty. Qed.

Lemma decoded_PresencePenalty ms p :
  decode_members ms samplingParams_zero = Some p ->
  from_option decode_float32 (Some None) (lookup_field FPresencePenalty ms)
  = Some (PresencePenalty p).
Proof. decided_by FPresencePenalty. Qed.

Lemma decoded_Stop ms p :
  decode_members ms samplingParams_zero = Some p ->
  from_option valueInterface (Some AnyNil) (lookup_field FStop ms)
  = Some (Stop p).
Proof. decided_by FStop. Qed.

(** An element of a decoded array is a string exactly when the element of
    the document is. *)
Lemma valueInterface_string (x : value) (a : any) :
  valueInterface x = Some a ->
  match a with AnyString s => Some s | _ => None end
  = match x with JString s => Some s | _ => None end.
Proof.
  destruct x; simpl; intros Hx; simplify_option_eq; reflexivity.
Qed.

Lemma valueInterface_array (elems : list value) (a : any) :
  valueInterface (JArray elems) = Some a ->
  exists items, a = AnySlice items /\ any_strings items = strings_of elems.
Proof.
  simpl. intros Ha. apply fmap_Some in Ha as (items & Hitems & ->).
  exists items. split; [reflexivity|].
  revert items Hitems. induction elems as [|x elems IH]; intros items Hitems.
  - injection Hitems as <-. reflexivity.
  - apply bind_Some in Hitems as (ax & Hx & Hitems).
    apply bind_Some in Hitems as (r & Hr & [= <-]).
    specialize (IH _ Hr). unfold any_strings, strings_of in *.
    cbn [omap list_omap]. rewrite (valueInterface_string _ _ Hx), IH.
    reflexivity.
Qed.

End Fields.

(** ** The stop field *)

Section Stop.

Import vllm_grpc.

Lemma decode_members_app (a b : list (string * value)) (p : samplingParams) :
  decode_members (a ++ b) p = decode_members a p ≫= decode_members b.
Proof.
  revert p. induction a as [|[key v] a IH]; intros p; simpl; [reflexivity|].
  destruct (field_of_key key) as [g|]; [|apply IH].
  destruct (store g v p) as [p1|]; simpl; [apply IH | reflexivity].
Qed.

Lemma store_set_Stop (g : field) (v : value) (a : any) (p : samplingParams) :
  g <> FStop -> store g v (set_Stop a p) = set_Stop a <$> store g v p.
Proof.
  intros Hg. destruct g; try congruence; unfold store; simpl;
    match goal with
    | |- context [decode_int ?b ?v] => destruct (decode_int b v)
    | |- context [decode_float32 ?v] => destruct (decode_float32 v)
    | |- context [decode_bool ?v ?o] => destruct (decode_bool v o)
    end; reflexivity.
Qed.

(** Whether the members of an object decode does not depend on what the stop
    field holds when decoding starts. *)
Lemma decode_members_Stop_irrelevant (ms : list (string * value)) :
  forall p a,
    is_Some (decode_members ms (set_Stop a p)) <-> is_Some (decode_members ms p).
Proof.
  induction ms as [|[key v] ms IH]; intros p a; simpl.
  - split; eauto.
  - destruct (field_of_key key) as [g|]; [|apply IH].
    destruct (decide (g = FStop)) as [->|Hg].
    + unfold store. destruct (valueInterface v); simpl; reflexivity.
    + rewrite store_set_Stop by assumption.
      destruct (store g v p) as [p1|]; simpl; [apply IH | reflexivity].
Qed.

(** An object can be stored in an interface when the values of its members
    can. *)
Lemma valueInterface_object (ms : list (string * value)) :
  Forall (fun kv => is_Some (valueInterface kv.2)) ms ->
  is_Some (valueInterface (JObject ms)).
Proof.
  intros Hms. simpl. apply fmap_is_Some.
  generalize (∅ : gmap string any).
  induction Hms as [|[key v] ms [a Ha] _ IH]; intros m.
  - eauto.
  - simpl in Ha. rewrite Ha. simpl. apply IH.
Qed.

(** Whether a value can be stored into a field does not depend on what the
    struct holds. *)
Lemma store_is_Some (f : field) (v : value) (p q : samplingParams) :
  is_Some (store f v p) -> is_Some (store f v q).
Proof.
  destruct f; unfold store; simpl.
  1-7: match goal with
       | |- context [decode_int ?b ?v] => destruct (decode_int b v)
       | |- context [decode_float32 ?v] => destruct (decode_float32 v)
       end; simpl; intros [? [=]]; eauto.
  - destruct v; simpl; intros [? [=]]; eauto.
  - destruct (valueInterface v); simpl; intros [? [=]]; eauto.
Qed.

(** Whether the members of an object decode does not depend on what the
    struct holds when decoding starts. *)
Lemma decode_members_is_Some (ms : list (string * value)) :
  forall p q, is_Some (decode_members ms p) -> is_Some (decode_members ms q).
Proof.
  induction ms as [|[key v] ms IH]; intros p q; simpl; [eauto|].
  destruct (field_of_key key) as [g|]; [|apply IH].
  destruct (store g v p) as [p'|] eqn:Hp; simpl; [|intros [? [=]]].
  destruct (store_is_Some g v p q ltac:(eauto)) as [q' ->]. simpl.
  apply IH.
Qed.

(** A member whose value can be stored never makes a body fail whose other
    members decode. *)
Lemma member_accepted (f : field) (key : string) (v : value)
    (ms1 ms2 : list (string * value)) :
  field_of_key key = Some f ->
  is_Some (store f v samplingParams_zero) ->
  is_Some (Unmarshal (Some (JObject (ms1 ++ ms2)))) ->
  is_Some (Unmarshal (Some (JObject (ms1 ++ (key, v) :: ms2)))).
Proof.
  intros Hkey Hst. rewrite !Unmarshal_object, !decode_members_app.
  destruct (decode_members ms1 samplingParams_zero) as [p1|]; simpl;
    [|trivial].
  rewrite Hkey.
  destruct (store_is_Some f v _ p1 Hst) as [p1' ->]. simpl.
  apply decode_members_is_Some.
Qed.

(** A member whose value cannot be stored makes the body fail, wherever it
    stands. *)
Lemma member_rejected (f : field) (key : string) (v : value)
    (ms1 ms2 : list (string * value)) :
  field_of_key key = Some f ->
  store f v samplingParams_zero = None ->
  ParseSamplingParams (Some (JObject (ms1 ++ (key, v) :: ms2)))
  = Err UnmarshalSamplingParams.
Proof.
  intros Hkey Hst. apply ParseSamplingParams_rejected.
  rewrite Unmarshal_object, decode_members_app.
  destruct (decode_members ms1 samplingParams_zero) as [p1|]; simpl;
    [|reflexivity].
  rewrite Hkey. destruct (store f v p1) as [p1'|] eqn:Hp1; [|reflexivity].
  destruct (store_is_Some f v p1 samplingParams_zero ltac:(eauto))
    as [? Hz]. congruence.
Qed.

(** A member decoded into a field, with no later member decoded into it, is
    the one that decides the field. *)
Lemma lookup_field_last (f : field) (ms1 ms2 : list (string * value))
    (key : string) (v : value) :
  field_of_key key = Some f ->
  lookup_field f ms2 = None ->
  lookup_field f (ms1 ++ (key, v) :: ms2) = Some v.
Proof.
  intros Hkey Hlk. induction ms1 as [|[k w] ms1 IH]; simpl.
  - rewrite Hlk. case_bool_decide; congruence.
  - rewrite IH. reflexivity.
Qed.

(** What ParseSamplingParams makes of a stop member that the decoder can
    store and that no later member overrides, in a body whose other members
    decode. *)
Lemma stop_member_result (ms1 ms2 : list (string * value)) (key : string)
    (v : value) (a : any) :
  field_of_key key = Some FStop ->
  lookup_field FStop ms2 = None ->
  valueInterface v = Some a ->
  is_Some (Unmarshal (Some (JObject (ms1 ++ ms2)))) ->
  stop_result
    (ParseSamplingParams (Some (JObject (ms1 ++ (key, v) :: ms2))))
  = Some (stop_of a).
Proof.
  intros Hkey Hlk Ha Hrest.
  destruct (member_accepted FStop key v ms1 ms2 Hkey) as [p Hp];
    [unfold store; rewrite Ha; simpl; eauto | assumption |].
  rewrite (ParseSamplingParams_decoded _ _ Hp). simpl.
  rewrite Unmarshal_object in Hp. apply decoded_Stop in Hp.
  rewrite (lookup_field_last _ _ _ _ _ Hkey Hlk) in Hp. simpl in Hp.
  congruence.
Qed.

(** Induction on a document, through its arrays and objects. *)
Lemma value_nested_ind (P : value -> Prop) :
  P JNull -> (forall b, P (JBool b)) -> (forall lit, P (JNumber lit)) ->
  (forall s, P (JString s)) ->
  (forall elems, Forall P elems -> P (JArray elems)) ->
  (forall ms, Forall (fun kv => P kv.2) ms -> P (JObject ms)) ->
  forall v, P v.
Proof.
  intros Hnull Hbool Hnum Hstr Harr Hobj.
  fix IH 1. intros [| b | lit | s | elems | ms].
  - exact Hnull.
  - apply Hbool.
  - apply Hnum.
  - apply Hstr.
  - apply Harr. induction elems as [|x elems IHl]; constructor;
      [apply IH | exact IHl].
  - apply Hobj. induction ms as [|[k x] ms IHl]; constructor;
      [apply IH | exact IHl].
Qed.

(** The decoder stores a value in an interface exactly when every number
    in it is within the float64 range. *)
Lemma valueInterface_numbers_fit (v : value) :
  is_Some (valueInterface v) <-> numbers_fit v = true.
Proof.
  induction v as [| b | lit | s | elems IH | ms IH] using value_nested_ind;
    simpl.
  - split; eauto.
  - split; eauto.
  - rewrite fmap_is_Some.
    destruct (strconv.ParseFloat lit 64) as [f|]; split.
    + reflexivity.
    + intros _. exists f. reflexivity.
    + intros [? [=]].
    + discriminate.
  - split; eauto.
  - rewrite fmap_is_Some.
    induction IH as [|x elems Hx _ IHl]; simpl.
    + split; eauto.
    + rewrite andb_true_iff, <- Hx, <- IHl.
      destruct (valueInterface x) as [a|]; simpl.
      * match goal with
        | |- is_Some (mbind _ ?m) <-> _ => destruct m as [r|]
        end; simpl; split.
        -- intros _. split; eexists; reflexivity.
        -- intros _. eexists; reflexivity.
        -- intros [? [=]].
        -- intros [_ [? [=]]].
      * split; [intros [? [=]] | intros [[? [=]] _]].
  - rewrite fmap_is_Some. generalize (∅ : gmap string any).
    induction IH as [|[k x] ms Hx _ IHl]; intros m; simpl in *.
    + split; eauto.
    + rewrite andb_true_iff, <- Hx.
      destruct (valueInterface x) as [a|]; simpl.
      * rewrite IHl. split; [intros H | intros [_ H]; exact H].
        split; [eexists; reflexivity | exact H].
      * split; [intros [? [=]] | intros [[? [=]] _]].
Qed.

(** C5 (as amended). The stop member of a body is the last member whose key
    equals stop up to letter case. Whenever the sampling parameters decode, a
    stop member that is a JSON string s gives the stop sequence [s], one that
    is a JSON array gives the string elements of the array in array order,
    the other elements being dropped, and no stop member gives the empty
    sequence. In a body whose other members decode, a stop string, and a stop
    array that holds no number beyond the float64 range, never make the
    extraction fail. A stop array that holds a number beyond the float64
    range makes the extraction fail with the unmarshalling error, a
    MalformedInput, wherever it stands in the body. *)
Theorem C5_stop_sequences :
  (forall ms sp st,
      ParseSamplingParams (Some (JObject ms)) = Ok (sp, st) ->
      (forall s, lookup_field FStop ms = Some (JString s) ->
                 vllm.Stop sp = [s]) /\
      (forall elems, lookup_field FStop ms = Some (JArray elems) ->
                     vllm.Stop sp = strings_of elems) /\
      (lookup_field FStop ms = None -> vllm.Stop sp = [])) /\
  (forall ms1 ms2 key s,
      field_of_key key = Some FStop ->
      lookup_field FStop ms2 = None ->
      is_Some (Unmarshal (Some (JObject (ms1 ++ ms2)))) ->
      stop_result
        (ParseSamplingParams
           (Some (JObject (ms1 ++ (key, JString s) :: ms2))))
      = Some [s]) /\
  (forall ms1 ms2 key elems,
      field_of_key key = Some FStop ->
      lookup_field FStop ms2 = None ->
      numbers_fit (JArray elems) = true ->
      is_Some (Unmarshal (Some (JObject (ms1 ++ ms2)))) ->
      stop_result
        (ParseSamplingParams
           (Some (JObject (ms1 ++ (key, JArray elems) :: ms2))))
      = Some (strings_of elems)) /\
  (forall ms1 ms2 key elems,
      field_of_key key = Some FStop ->
      numbers_fit (JArray elems) = false ->
      ParseSamplingParams (Some (JObject (ms1 ++ (key, JArray elems) :: ms2)))
      = Err UnmarshalSamplingParams) /\
  category_of UnmarshalSamplingParams = Some MalformedInput.
Proof.
  split; [|split; [|split; [|split]]].
  - intros ms sp st Hok.
    apply ParseSamplingParams_Ok_inv in Hok as (p & Hdec & -> & _).
    rewrite Unmarshal_object in Hdec. apply decoded_Stop in Hdec.
    unfold sampling_of; cbn [vllm.Stop]. split; [|split].
    + intros s Hlk. rewrite Hlk in Hdec. injection Hdec as <-. reflexivity.
    + intros elems Hlk. rewrite Hlk in Hdec. cbn [from_option] in Hdec.
      apply valueInterface_array in Hdec as (items & Heq & Hstr).
      rewrite Heq. exact Hstr.
    + intros Hlk. rewrite Hlk in Hdec. injection Hdec as <-. reflexivity.
  - intros ms1 ms2 key s Hkey Hlk Hrest.
    apply (stop_member_result ms1 ms2 key (JString s) (AnyString s));
      auto.
  - intros ms1 ms2 key elems Hkey Hlk Hfit Hrest.
    apply valueInterface_numbers_fit in Hfit as [a Ha].
    rewrite (stop_member_result ms1 ms2 key _ a Hkey Hlk Ha Hrest).
    apply valueInterface_array in Ha as (items & -> & Hstr).
    simpl. now rewrite Hstr.
  - intros ms1 ms2 key elems Hkey Hfit.
    apply (member_rejected FStop); [assumption|].
    unfold store.
    destruct (valueInterface (JArray elems)) as [a|] eqn:Ha; [|reflexivity].
    assert (Hs : is_Some (valueInterface (JArray elems))) by eauto.
    apply valueInterface_numbers_fit in Hs. congruence.
  - reflexivity.
Qed.

Lemma C5_stop_sequences_witness :
  stop_result
    (ParseSamplingParams
       (Some (JObject ([("messages", JArray [])]
                       ++ ("stop", JString "STOP") :: []))))
  = Some ["STOP"] /\
  stop_result
    (ParseSamplingParams
       (Some (JObject ([("messages", JArray [])]
                       ++ ("stop", JArray [JString "STOP"; JNumber "5";
                                           JString "END"]) :: []))))
  = Some ["STOP"; "END"] /\
  stop_result
    (ParseSamplingParams (Some (JObject [("messages", JArray [])])))
  = Some [].
Proof.
  split; [|split].
  - apply (proj1 (proj2 C5_stop_sequences)); [reflexivity | reflexivity|].
    vm_compute. eauto.
  - apply (proj1 (proj2 (proj2 C5_stop_sequences))
             [("messages", JArray [])] [] "stop"
             [JString "STOP"; JNumber "5"; JString "END"]);
      [reflexivity | reflexivity | reflexivity|].
    vm_compute. eauto.
  - destruct (ParseSamplingParams (Some (JObject [("messages", JArray [])])))
      as [[sp st]|e] eqn:Hok; [|vm_compute in Hok; discriminate].
    simpl. f_equal.
    apply (proj2 (proj2 (proj1 C5_stop_sequences _ _ _ Hok))). reflexivity.
Defined.

(** C5 as stated fails: a number beyond the float64 range in a stop array
    is not dropped, the whole extraction fails; and a body with no stop key,
    but a key STOP, does not get the empty sequence. *)
Lemma C5_stop_array_with_huge_number_is_rejected :
  valid (JObject [("messages", JArray []);
                  ("stop", JArray [JString "STOP"; JNumber "1e999"])]) = true /\
  ParseSamplingParams
    (Some (JObject [("messages", JArray []);
                    ("stop", JArray [JString "STOP"; JNumber "1e999"])]))
  = Err UnmarshalSamplingParams /\
  last_member "stop" [("messages", JArray []); ("STOP", JString "x")] = None /\
  stop_result
    (ParseSamplingParams
       (Some (JObject [("messages", JArray []); ("STOP", JString "x")])))
  = Some ["x"].
Proof. repeat split. Qed.

(** C10 (as amended). When the stop member is neither a string nor an array
    and the sampling parameters decode, the stop sequence is empty. A stop
    member whose value the decoder can store in an interface (every number in
    it within the float64 range) never makes a body that decodes without it
    fail; one whose value it cannot store makes extraction fail with the
    unmarshalling error. Booleans, null, numbers within the float64 range and
    objects of values that can be stored can be stored. *)
Theorem C10_other_stop_shapes :
  (forall ms sp st v,
      ParseSamplingParams (Some (JObject ms)) = Ok (sp, st) ->
      lookup_field FStop ms = Some v ->
      (forall s, v <> JString s) -> (forall elems, v <> JArray elems) ->
      vllm.Stop sp = []) /\
  (forall ms1 ms2 key v,
      field_of_key key = Some FStop ->
      is_Some (valueInterface v) ->
      is_Some (Unmarshal (Some (JObject (ms1 ++ ms2)))) ->
      exists sp st,
        ParseSamplingParams (Some (JObject (ms1 ++ (key, v) :: ms2)))
        = Ok (sp, st)) /\
  (forall ms v,
      lookup_field FStop ms = Some v ->
      valueInterface v = None ->
      ParseSamplingParams (Some (JObject ms)) = Err UnmarshalSamplingParams) /\
  (forall b, is_Some (valueInterface (JBool b))) /\
  is_Some (valueInterface JNull) /\
  (forall lit, is_Some (strconv.ParseFloat lit 64) ->
               is_Some (valueInterface (JNumber lit))) /\
  (forall members,
      Forall (fun kv => is_Some (valueInterface kv.2)) members ->
      is_Some (valueInterface (JObject members))).
Proof.
  split; [|split; [|split; [|split; [|split; [|split]]]]];
    [| | | | | | exact valueInterface_object].
  - intros ms sp st v Hok Hlk Hstr Harr.
    apply ParseSamplingParams_Ok_inv in Hok as (p & Hdec & -> & _).
    rewrite Unmarshal_object in Hdec. apply decoded_Stop in Hdec.
    rewrite Hlk in Hdec. cbn [from_option] in Hdec.
    unfold sampling_of; cbn [vllm.Stop].
    destruct v; simpl in Hdec.
    + injection Hdec as <-. reflexivity.
    + injection Hdec as <-. reflexivity.
    + apply fmap_Some in Hdec as (f & _ & ->). reflexivity.
    + exfalso. eapply Hstr. reflexivity.
    + exfalso. eapply Harr. reflexivity.
    + apply fmap_Some in Hdec as (m & _ & ->). reflexivity.
  - intros ms1 ms2 key v Hkey [a Ha] Hrest.
    rewrite Unmarshal_object, decode_members_app in Hrest.
    assert (Hdec : is_Some (Unmarshal (Some (JObject (ms1 ++ (key, v) :: ms2))))).
    { rewrite Unmarshal_object, decode_members_app.
      destruct (decode_members ms1 samplingParams_zero) as [p1|];
        simpl in *; [|assumption].
      rewrite Hkey. unfold store. rewrite Ha. simpl.
      apply decode_members_Stop_irrelevant. assumption. }
    destruct Hdec as [p Hp].
    rewrite (ParseSamplingParams_decoded _ _ Hp). eauto.
  - intros ms v Hlk Hv. apply ParseSamplingParams_rejected.
    rewrite Unmarshal_object.
    destruct (decode_members ms samplingParams_zero) as [p|] eqn:Hdec;
      [|reflexivity].
    apply decoded_Stop in Hdec. rewrite Hlk in Hdec. simpl in Hdec.
    congruence.
  - intros b. simpl. eauto.
  - simpl. eauto.
  - intros lit [f Hf]. simpl. rewrite Hf. simpl. eauto.
Qed.

Lemma C10_other_stop_shapes_witness :
  stop_result
    (ParseSamplingParams
       (Some (JObject [("messages", JArray []); ("stop", JNumber "5")])))
  = Some [] /\
  (exists sp st,
      ParseSamplingParams
        (Some (JObject [("max_tokens", JNumber "7"); ("stop", JBool true);
                        ("n", JNumber "2")]))
      = Ok (sp, st)) /\
  ParseSamplingParams
    (Some (JObject [("messages", JArray []); ("stop", JNumber "1e999")]))
  = Err UnmarshalSamplingParams.
Proof.
  split; [|split].
  - destruct (ParseSamplingParams
                (Some (JObject [("messages", JArray []);
                                ("stop", JNumber "5")])))
      as [[sp st]|e] eqn:Hok; [|vm_compute in Hok; discriminate].
    simpl. f_equal.
    apply (proj1 C10_other_stop_shapes _ _ _ (JNumber "5") Hok);
      [reflexivity | discriminate | discriminate].
  - apply (proj1 (proj2 C10_other_stop_shapes)
             [("max_tokens", JNumber "7")] [("n", JNumber "2")]
             "stop" (JBool true)).
    + reflexivity.
    + vm_compute. eauto.
    + vm_compute. eauto.
  - apply (proj1 (proj2 (proj2 C10_other_stop_shapes))
             [("messages", JArray []); ("stop", JNumber "1e999")]
             (JNumber "1e999")); reflexivity.
Defined.

(** C10 as stated fails: a stop member that is a number beyond the float64
    range sits in a valid JSON body, is neither a string nor an array, and
    makes the extraction fail. *)
Lemma C10_stop_number_out_of_float64 :
  valid (JObject [("messages", JArray []); ("stop", JNumber "1e999")]) = true /\
  lookup_field FStop [("messages", JArray []); ("stop", JNumber "1e999")]
  = Some (JNumber "1e999") /\
  ParseSamplingParams
    (Some (JObject [("messages", JArray []); ("stop", JNumber "1e999")]))
  = Err UnmarshalSamplingParams.
Proof. repeat split. Qed.

End Stop.

(** ** Defaults *)

Section Defaults.

Import vllm_grpc.

Lemma lookup_field_app (f : field) (a b : list (string * value)) :
  lookup_field f (a ++ b)
  = match lookup_field f b with
    | Some w => Some w
    | None => lookup_field f a
    end.
Proof.
  induction a as [|[key v] a IH]; simpl.
  - destruct (lookup_field f b); reflexivity.
  - rewrite IH. destruct (lookup_field f b); reflexivity.
Qed.

Lemma lookup_field_app_None (f : field) (a b : list (string * value)) :
  lookup_field f (a ++ b) = None ->
  lookup_field f a = None /\ lookup_field f b = None.
Proof.
  rewrite lookup_field_app. destruct (lookup_field f b); [discriminate|auto].
Qed.

(** A member that sets one field, placed anywhere among members that do not
    touch that field, commutes with them. *)
Ltac store_commutes :=
  let Hg := fresh "Hg" in
  intros Hg;
  match goal with
  | |- store ?g _ _ = _ =>
      destruct g; try congruence; unfold store; simpl;
      match goal with
      | |- context [decode_int ?b ?v] => destruct (decode_int b v)
      | |- context [decode_float32 ?v] => destruct (decode_float32 v)
      | |- context [decode_bool ?v ?o] => destruct (decode_bool v o)
      | |- context [valueInterface ?v] => destruct (valueInterface v)
      end; reflexivity
  end.

Lemma store_set_MaxTokens g v x p :
  g <> FMaxTokens ->
  store g v (set_MaxTokens x p) = set_MaxTokens x <$> store g v p.
Proof. store_commutes. Qed.

Lemma store_set_TopP g v x p :
  g <> FTopP -> store g v (set_TopP x p) = set_TopP x <$> store g v p.
Proof. store_commutes. Qed.

Lemma store_set_N g v x p :
  g <> FN -> store g v (set_N x p) = set_N x <$> store g v p.
Proof. store_commutes. Qed.

Ltac decode_commutes f store_set :=
  let ms := fresh "ms" in
  let IH := fresh "IH" in
  intros ms;
  induction ms as [|[? ?] ms IH]; intros Hlk p x; simpl in *;
  [ reflexivity
  | destruct (lookup_field f ms) eqn:Hms; [discriminate|];
    case_bool_decide; [discriminate|];
    destruct (field_of_key _) as [g|];
    [ rewrite store_set by congruence;
      destruct (store g _ p); simpl; [apply IH; reflexivity | reflexivity]
    | apply IH; reflexivity ] ].

Lemma decode_members_set_MaxTokens :
  forall ms, lookup_field FMaxTokens ms = None ->
  forall p x, decode_members ms (set_MaxTokens x p)
              = set_MaxTokens x <$> decode_members ms p.
Proof. decode_commutes FMaxTokens store_set_MaxTokens. Qed.

Lemma decode_members_set_TopP :
  forall ms, lookup_field FTopP ms = None ->
  forall p x, decode_members ms (set_TopP x p)
              = set_TopP x <$> decode_members ms p.
Proof. decode_commutes FTopP store_set_TopP. Qed.

Lemma decode_members_set_N :
  forall ms, lookup_field FN ms = None ->
  forall p x, decode_members ms (set_N x p) = set_N x <$> decode_members ms p.
Proof. decode_commutes FN store_set_N. Qed.

(** Inserting a member that sets a field, when no other member sets that
    field, sets it in the decoded struct and changes nothing else. *)
Lemma Unmarshal_insert_MaxTokens ms1 ms2 key lit i :
  field_of_key key = Some FMaxTokens ->
  lookup_field FMaxTokens (ms1 ++ ms2) = None ->
  strconv.ParseInt lit 64 = Some i ->
  GoInt.wrap_signed 64 i = i ->
  Unmarshal (Some (JObject (ms1 ++ (key, JNumber lit) :: ms2)))
  = set_MaxTokens (Some i) <$> Unmarshal (Some (JObject (ms1 ++ ms2))).
Proof.
  intros Hkey Hlk Hlit Hfit.
  apply lookup_field_app_None in Hlk as [_ H2].
  rewrite !Unmarshal_object, !decode_members_app.
  destruct (decode_members ms1 samplingParams_zero) as [p1|]; simpl;
    [|reflexivity].
  rewrite Hkey. unfold store, decode_int. rewrite Hlit, Hfit, Z.eqb_refl.
  simpl. apply decode_members_set_MaxTokens. assumption.
Qed.

Lemma Unmarshal_insert_N ms1 ms2 key lit i :
  field_of_key key = Some FN ->
  lookup_field FN (ms1 ++ ms2) = None ->
  strconv.ParseInt lit 64 = Some i ->
  GoInt.wrap_signed 64 i = i ->
  Unmarshal (Some (JObject (ms1 ++ (key, JNumber lit) :: ms2)))
  = set_N (Some i) <$> Unmarshal (Some (JObject (ms1 ++ ms2))).
Proof.
  intros Hkey Hlk Hlit Hfit.
  apply lookup_field_app_None in Hlk as [_ H2].
  rewrite !Unmarshal_object, !decode_members_app.
  destruct (decode_members ms1 samplingParams_zero) as [p1|]; simpl;
    [|reflexivity].
  rewrite Hkey. unfold store, decode_int. rewrite Hlit, Hfit, Z.eqb_refl.
  simpl. apply decode_members_set_N. assumption.
Qed.

Lemma Unmarshal_insert_TopP ms1 ms2 key lit f :
  field_of_key key = Some FTopP ->
  lookup_field FTopP (ms1 ++ ms2) = None ->
  strconv.ParseFloat lit 32 = Some f ->
  Unmarshal (Some (JObject (ms1 ++ (key, JNumber lit) :: ms2)))
  = set_TopP (Some f) <$> Unmarshal (Some (JObject (ms1 ++ ms2))).
Proof.
  intros Hkey Hlk Hlit.
  apply lookup_field_app_None in Hlk as [_ H2].
  rewrite !Unmarshal_object, !decode_members_app.
  destruct (decode_members ms1 samplingParams_zero) as [p1|]; simpl;
    [|reflexivity].
  rewrite Hkey. unfold store, decode_float32. rewrite Hlit.
  simpl. apply decode_members_set_TopP. assumption.
Qed.

(** A field explicitly set to its default value gives the same outcome as
    the field left out. *)
Lemma explicit_default_max_tokens ms1 ms2 key lit :
  field_of_key key = Some FMaxTokens ->
  lookup_field FMaxTokens (ms1 ++ ms2) = None ->
  strconv.ParseInt lit 64 = Some 1024 ->
  ParseSamplingParams (Some (JObject (ms1 ++ (key, JNumber lit) :: ms2)))
  = ParseSamplingParams (Some (JObject (ms1 ++ ms2))).
Proof.
  intros Hkey Hlk Hlit.
  pose proof (Unmarshal_insert_MaxTokens ms1 ms2 key lit 1024 Hkey Hlk Hlit
                eq_refl) as Hins.
  destruct (Unmarshal (Some (JObject (ms1 ++ ms2)))) as [p|] eqn:Hr;
    simpl in Hins.
  - rewrite (ParseSamplingParams_decoded (Some (JObject _)) _ Hins),
            (ParseSamplingParams_decoded _ _ Hr).
    rewrite Unmarshal_object in Hr. apply decoded_MaxTokens in Hr.
    rewrite Hlk in Hr. injection Hr as Hr.
    unfold sampling_of; simpl. rewrite <- Hr. reflexivity.
  - rewrite (ParseSamplingParams_rejected (Some (JObject _)) Hins),
            (ParseSamplingParams_rejected _ Hr). reflexivity.
Qed.

Lemma explicit_default_n ms1 ms2 key lit :
  field_of_key key = Some FN ->
  lookup_field FN (ms1 ++ ms2) = None ->
  strconv.ParseInt lit 64 = Some 1 ->
  ParseSamplingParams (Some (JObject (ms1 ++ (key, JNumber lit) :: ms2)))
  = ParseSamplingParams (Some (JObject (ms1 ++ ms2))).
Proof.
  intros Hkey Hlk Hlit.
  pose proof (Unmarshal_insert_N ms1 ms2 key lit 1 Hkey Hlk Hlit eq_refl)
    as Hins.
  destruct (Unmarshal (Some (JObject (ms1 ++ ms2)))) as [p|] eqn:Hr;
    simpl in Hins.
  - rewrite (ParseSamplingParams_decoded (Some (JObject _)) _ Hins),
            (ParseSamplingParams_decoded _ _ Hr).
    rewrite Unmarshal_object in Hr. apply decoded_N in Hr.
    rewrite Hlk in Hr. injection Hr as Hr.
    unfold sampling_of; simpl. rewrite <- Hr. reflexivity.
  - rewrite (ParseSamplingParams_rejected (Some (JObject _)) Hins),
            (ParseSamplingParams_rejected _ Hr). reflexivity.
Qed.

Lemma explicit_default_top_p ms1 ms2 key lit :
  field_of_key key = Some FTopP ->
  lookup_field FTopP (ms1 ++ ms2) = None ->
  strconv.ParseFloat lit 32 = Some vllm.float32_1 ->
  ParseSamplingParams (Some (JObject (ms1 ++ (key, JNumber lit) :: ms2)))
  = ParseSamplingParams (Some (JObject (ms1 ++ ms2))).
Proof.
  intros Hkey Hlk Hlit.
  pose proof (Unmarshal_insert_TopP ms1 ms2 key lit _ Hkey Hlk Hlit) as Hins.
  destruct (Unmarshal (Some (JObject (ms1 ++ ms2)))) as [p|] eqn:Hr;
    simpl in Hins.
  - rewrite (ParseSamplingParams_decoded (Some (JObject _)) _ Hins),
            (ParseSamplingParams_decoded _ _ Hr).
    rewrite Unmarshal_object in Hr. apply decoded_TopP in Hr.
    rewrite Hlk in Hr. injection Hr as Hr.
    unfold sampling_of; simpl. rewrite <- Hr. reflexivity.
  - rewrite (ParseSamplingParams_rejected (Some (JObject _)) Hins),
            (ParseSamplingParams_rejected _ Hr). reflexivity.
Qed.

Lemma decode_int_Some bits v x :
  decode_int bits v = Some x ->
  (v = JNull /\ x = None) \/
  (exists lit i, v = JNumber lit /\ strconv.ParseInt lit 64 = Some i /\
                 GoInt.wrap_signed bits i = i /\ x = Some i).
Proof.
  destruct v; simpl; try discriminate.
  - intros [= <-]. auto.
  - destruct (strconv.ParseInt lit 64) as [i|] eqn:Hi; [|discriminate].
    destruct (Z.eqb_spec (GoInt.wrap_signed bits i) i); [|discriminate].
    intros [= <-]. right. exists lit, i. auto.
Qed.

Lemma decode_float32_Some v x :
  decode_float32 v = Some x ->
  (v = JNull /\ x = None) \/
  (exists lit f, v = JNumber lit /\ strconv.ParseFloat lit 32 = Some f /\
                 x = Some f).
Proof.
  destruct v; simpl; try discriminate.
  - intros [= <-]. auto.
  - destruct (strconv.ParseFloat lit 32) as [f|] eqn:Hf; [|discriminate].
    intros [= <-]. right. exists lit, f. auto.
Qed.

Lemma absent_or_null_int bits o x :
  absent_or_null o ->
  from_option (decode_int bits) (Some None) o = Some x -> x = None.
Proof. intros [-> | ->]; simpl; congruence. Qed.

Lemma absent_or_null_float32 o x :
  absent_or_null o ->
  from_option decode_float32 (Some None) o = Some x -> x = None.
Proof. intros [-> | ->]; simpl; congruence. Qed.

(** Every json tag is decoded into its own field. *)
Lemma field_of_key_tag (f : field) : field_of_key (tag f) = Some f.
Proof. destruct f; reflexivity. Qed.

(** In a body whose sampling keys are spelled as the json tags, the member
    that decides a field is the last member with exactly that key. *)
Lemma lookup_field_exact (f : field) (ms : list (string * value)) :
  Forall (fun kv => forall g, field_of_key kv.1 = Some g -> kv.1 = tag g) ms ->
  lookup_field f ms = last_member (tag f) ms.
Proof.
  induction 1 as [|[key v] ms Hkey _ IH]; simpl in *; [reflexivity|].
  rewrite IH. destruct (last_member (tag f) ms); [reflexivity|].
  rewrite (bool_decide_ext (field_of_key key = Some f) (key = tag f));
    [reflexivity|].
  split; [apply Hkey | intros ->; apply field_of_key_tag].
Qed.

(** C3 (as amended). The member that decides a field is the last member
    whose key equals the json tag of the field up to letter case; in a body
    whose sampling keys are spelled as the tags, it is the last member with
    exactly that key. Whenever the sampling parameters decode: a field with
    no deciding member, or a null one, gets its default (max_tokens 1024,
    top_p 1.0, n 1) or stays unset (temperature, seed) or empty (stop); a
    field whose deciding member is not null holds the number of that member
    (max_tokens and n cut to 32 bits, temperature and seed set to it), and
    stop what the type switch makes of that member. Hence a member that sets
    max_tokens to 1024, top_p to 1.0 or n to 1, in a body with no other
    member for that field, gives the same outcome as the body without it. *)
Theorem C3_defaults_and_overwrites :
  (forall ms sp st,
      ParseSamplingParams (Some (JObject ms)) = Ok (sp, st) ->
      (absent_or_null (lookup_field FMaxTokens ms) ->
       vllm.MaxTokens sp = Some 1024) /\
      (absent_or_null (lookup_field FTopP ms) ->
       vllm.TopP sp = vllm.float32_1) /\
      (absent_or_null (lookup_field FN ms) -> vllm.N sp = 1) /\
      (absent_or_null (lookup_field FTemperature ms) ->
       vllm.Temperature sp = None) /\
      (absent_or_null (lookup_field FSeed ms) -> vllm.Seed sp = None) /\
      (absent_or_null (lookup_field FStop ms) -> vllm.Stop sp = []) /\
      (forall v, lookup_field FMaxTokens ms = Some v -> v <> JNull ->
                 exists lit i, v = JNumber lit /\
                               strconv.ParseInt lit 64 = Some i /\
                               vllm.MaxTokens sp = Some (GoInt.uint32 i)) /\
      (forall v, lookup_field FTopP ms = Some v -> v <> JNull ->
                 exists lit f, v = JNumber lit /\
                               strconv.ParseFloat lit 32 = Some f /\
                               vllm.TopP sp = f) /\
      (forall v, lookup_field FN ms = Some v -> v <> JNull ->
                 exists lit i, v = JNumber lit /\
                               strconv.ParseInt lit 64 = Some i /\
                               vllm.N sp = GoInt.uint32 i) /\
      (forall v, lookup_field FTemperature ms = Some v -> v <> JNull ->
                 exists lit f, v = JNumber lit /\
                               strconv.ParseFloat lit 32 = Some f /\
                               vllm.Temperature sp = Some f) /\
      (forall v, lookup_field FSeed ms = Some v -> v <> JNull ->
                 exists lit i, v = JNumber lit /\
                               strconv.ParseInt lit 64 = Some i /\
                               vllm.Seed sp = Some i) /\
      (forall v, lookup_field FStop ms = Some v ->
                 exists a, valueInterface v = Some a /\
                           vllm.Stop sp = stop_of a)) /\
  (forall ms1 ms2 key lit,
      field_of_key key = Some FMaxTokens ->
      lookup_field FMaxTokens (ms1 ++ ms2) = None ->
      strconv.ParseInt lit 64 = Some 1024 ->
      ParseSamplingParams (Some (JObject (ms1 ++ (key, JNumber lit) :: ms2)))
      = ParseSamplingParams (Some (JObject (ms1 ++ ms2)))) /\
  (forall ms1 ms2 key lit,
      field_of_key key = Some FTopP ->
      lookup_field FTopP (ms1 ++ ms2) = None ->
      strconv.ParseFloat lit 32 = Some vllm.float32_1 ->
      ParseSamplingParams (Some (JObject (ms1 ++ (key, JNumber lit) :: ms2)))
      = ParseSamplingParams (Some (JObject (ms1 ++ ms2)))) /\
  (forall ms1 ms2 key lit,
      field_of_key key = Some FN ->
      lookup_field FN (ms1 ++ ms2) = None ->
      strconv.ParseInt lit 64 = Some 1 ->
      ParseSamplingParams (Some (JObject (ms1 ++ (key, JNumber lit) :: ms2)))
      = ParseSamplingParams (Some (JObject (ms1 ++ ms2)))) /\
  (forall ms f,
      Forall (fun kv => forall g, field_of_key kv.1 = Some g -> kv.1 = tag g)
        ms ->
      lookup_field f ms = last_member (tag f) ms).
Proof.
  split; [|split; [|split; [|split]]];
    [| exact explicit_default_max_tokens | exact explicit_default_top_p
     | exact explicit_default_n
     | intros ms f; apply lookup_field_exact].
  intros ms sp st Hok.
  apply ParseSamplingParams_Ok_inv in Hok as (p & Hdec & -> & _).
  rewrite Unmarshal_object in Hdec.
  pose proof (decoded_MaxTokens _ _ Hdec) as Hmt.
  pose proof (decoded_TopP _ _ Hdec) as Htp.
  pose proof (decoded_N _ _ Hdec) as Hn.
  pose proof (decoded_Temperature _ _ Hdec) as Hte.
  pose proof (decoded_Seed _ _ Hdec) as Hse.
  pose proof (decoded_Stop _ _ Hdec) as Hst.
  unfold sampling_of; simpl.
  repeat apply conj.
  - intros Ha. rewrite (absent_or_null_int _ _ _ Ha Hmt). reflexivity.
  - intros Ha. rewrite (absent_or_null_float32 _ _ Ha Htp). reflexivity.
  - intros Ha. rewrite (absent_or_null_int _ _ _ Ha Hn). reflexivity.
  - intros Ha. apply (absent_or_null_float32 _ _ Ha Hte).
  - intros Ha. apply (absent_or_null_int _ _ _ Ha Hse).
  - intros [Ha | Ha]; rewrite Ha in Hst; injection Hst as <-; reflexivity.
  - intros v Hv Hnn. rewrite Hv in Hmt. simpl in Hmt.
    apply decode_int_Some in Hmt as [[-> _] | (lit & i & -> & Hi & _ & ->)];
      [congruence|].
    exists lit, i. auto.
  - intros v Hv Hnn. rewrite Hv in Htp. simpl in Htp.
    apply decode_float32_Some in Htp as [[-> _] | (lit & f & -> & Hf & ->)];
      [congruence|].
    exists lit, f. auto.
  - intros v Hv Hnn. rewrite Hv in Hn. simpl in Hn.
    apply decode_int_Some in Hn as [[-> _] | (lit & i & -> & Hi & _ & ->)];
      [congruence|].
    exists lit, i. auto.
  - intros v Hv Hnn. rewrite Hv in Hte. simpl in Hte.
    apply decode_float32_Some in Hte as [[-> _] | (lit & f & -> & Hf & ->)];
      [congruence|].
    exists lit, f. auto.
  - intros v Hv Hnn. rewrite Hv in Hse. simpl in Hse.
    apply decode_int_Some in Hse as [[-> _] | (lit & i & -> & Hi & _ & ->)];
      [congruence|].
    exists lit, i. auto.
  - intros v Hv. rewrite Hv in Hst. cbn [from_option] in Hst.
    exists (Stop p). auto.
Qed.

Lemma C3_defaults_and_overwrites_witness :
  match ParseSamplingParams
          (Some (JObject [("messages", JArray []); ("seed", JNull);
                          ("max_tokens", JNumber "100")])) with
  | Ok (sp, _) =>
      vllm.TopP sp = vllm.float32_1 /\ vllm.N sp = 1 /\
      vllm.Temperature sp = None /\ vllm.Seed sp = None /\
      vllm.Stop sp = [] /\ vllm.MaxTokens sp = Some 100
  | Err _ => False
  end /\
  match ParseSamplingParams
          (Some (JObject [("messages", JArray []); ("seed", JNumber "42");
                          ("temperature", JNumber "0.5")])) with
  | Ok (sp, _) =>
      vllm.Seed sp = Some 42 /\
      strconv.ParseFloat "0.5" 32 = vllm.Temperature sp
  | Err _ => False
  end /\
  ParseSamplingParams
    (Some (JObject [("messages", JArray []); ("max_tokens", JNumber "1024");
                    ("temperature", JNumber "0.7")]))
  = ParseSamplingParams
      (Some (JObject [("messages", JArray []);
                      ("temperature", JNumber "0.7")])) /\
  ParseSamplingParams
    (Some (JObject [("top_p", JNumber "1.0"); ("messages", JArray [])]))
  = ParseSamplingParams (Some (JObject [("messages", JArray [])])) /\
  ParseSamplingParams
    (Some (JObject [("messages", JArray []); ("n", JNumber "1")]))
  = ParseSamplingParams (Some (JObject [("messages", JArray [])])).
Proof.
  split; [|split; [|split; [|split]]].
  - destruct (ParseSamplingParams
                (Some (JObject [("messages", JArray []); ("seed", JNull);
                                ("max_tokens", JNumber "100")])))
      as [[sp st]|e] eqn:Hok; [|vm_compute in Hok; discriminate].
    destruct (proj1 C3_defaults_and_overwrites _ _ _ Hok)
      as (_ & Htp & Hn & Hte & Hse & Hst & Hmt & _).
    split; [apply Htp; left; reflexivity|].
    split; [apply Hn; left; reflexivity|].
    split; [apply Hte; left; reflexivity|].
    split; [apply Hse; right; reflexivity|].
    split; [apply Hst; left; reflexivity|].
    destruct (Hmt (JNumber "100") eq_refl ltac:(discriminate))
      as (lit & i & [= <-] & Hi & ->).
    vm_compute in Hi. injection Hi as <-. reflexivity.
  - destruct (ParseSamplingParams
                (Some (JObject [("messages", JArray []);
                                ("seed", JNumber "42");
                                ("temperature", JNumber "0.5")])))
      as [[sp st]|e] eqn:Hok; [|vm_compute in Hok; discriminate].
    destruct (proj1 C3_defaults_and_overwrites _ _ _ Hok)
      as (_ & _ & _ & _ & _ & _ & _ & _ & _ & Hte & Hse & _).
    destruct (Hse (JNumber "42") eq_refl ltac:(discriminate))
      as (lit & i & [= <-] & Hi & ->).
    destruct (Hte (JNumber "0.5") eq_refl ltac:(discriminate))
      as (lit & f & [= <-] & Hf & ->).
    vm_compute in Hi. injection Hi as <-. split; [reflexivity | exact Hf].
  - apply (proj1 (proj2 C3_defaults_and_overwrites)
             [("messages", JArray [])] [("temperature", JNumber "0.7")]
             "max_tokens" "1024"); reflexivity.
  - apply (proj1 (proj2 (proj2 C3_defaults_and_overwrites))
             [] [("messages", JArray [])] "top_p" "1.0"); reflexivity.
  - apply (proj1 (proj2 (proj2 (proj2 C3_defaults_and_overwrites)))
             [("messages", JArray [])] [] "n" "1"); reflexivity.
Defined.

(** C3 as stated fails: the key top_p is absent from the body, and yet top_p
    does not get its default. *)
Lemma C3_absent_key_without_default :
  last_member "top_p" [("messages", JArray []); ("TOP_P", JNumber "0.5")]
  = None /\
  match ParseSamplingParams
          (Some (JObject [("messages", JArray []);
                          ("TOP_P", JNumber "0.5")])) with
  | Ok (sp, _) =>
      strconv.ParseFloat "0.5" 32 = Some (vllm.TopP sp) /\
      vllm.TopP sp <> vllm.float32_1
  | Err _ => False
  end.
Proof.
  split; [reflexivity|]. vm_compute. split; [reflexivity | discriminate].
Qed.

End Defaults.

(** ** Numeric narrowing *)

Section Narrowing.

Import vllm_grpc.

Lemma digit_of_nonneg (c : ascii) (d : Z) : strconv.digit_of c = Some d -> 0 <= d.
Proof.
  unfold strconv.digit_of.
  destruct (Z.leb_spec 48 (Z.of_N (N_of_ascii c))); simpl; [|discriminate].
  destruct (_ <=? 57); [|discriminate]. intros [= <-]. lia.
Qed.

Lemma read_digits_nonneg (s : string) :
  forall acc cnt, 0 <= acc -> 0 <= (strconv.read_digits s acc cnt).1.1.
Proof.
  induction s as [|c s IH]; intros acc cnt Hacc; simpl; [assumption|].
  destruct (strconv.digit_of c) as [d|] eqn:Hd; simpl; [|assumption].
  apply IH. pose proof (digit_of_nonneg _ _ Hd). lia.
Qed.

Lemma ParseUint_range (s : string) (bits v : Z) :
  strconv.ParseUint s bits = Some v -> 0 <= v < 2 ^ bits.
Proof.
  unfold strconv.ParseUint.
  pose proof (read_digits_nonneg s 0 0 ltac:(lia)) as Hnn.
  destruct (strconv.read_digits s 0 0) as [[v' cnt] rest]; simpl in Hnn.
  destruct rest; [|discriminate].
  destruct (0 <? cnt); simpl; [|discriminate].
  destruct (Z.ltb_spec v' (2 ^ bits)); [|discriminate].
  intros [= <-]. lia.
Qed.

(** ParseInt only returns what fits 64 bits. *)
Lemma ParseInt_range (s : string) (i : Z) :
  strconv.ParseInt s 64 = Some i -> - 2 ^ 63 <= i < 2 ^ 63.
Proof.
  unfold strconv.ParseInt.
  match goal with
  | |- context [let '(_, _) := ?x in _] => destruct x as [neg s0]
  end.
  destruct (strconv.ParseUint s0 64) as [un|] eqn:Hun; [|discriminate].
  apply ParseUint_range in Hun. change (64 - 1) with 63.
  destruct neg; simpl.
  - destruct (Z.ltb_spec (2 ^ 63) un); [discriminate|].
    intros [= <-]. lia.
  - destruct (Z.leb_spec (2 ^ 63) un); [discriminate|].
    intros [= <-]. lia.
Qed.

Lemma wrap_signed_32_fits (i : Z) :
  GoInt.wrap_signed 32 i = i -> - 2 ^ 31 <= i < 2 ^ 31.
Proof.
  unfold GoInt.wrap_signed. change (32 - 1) with 31. intros Hw.
  pose proof (Z.mod_pos_bound (i + 2 ^ 31) (2 ^ 32) ltac:(lia)). lia.
Qed.

(** The member that decides a field is decoded: when its value cannot be
    stored, the whole extraction fails. *)
Lemma rejected_member (f : field) (ms : list (string * value)) (v : value) :
  lookup_field f ms = Some v ->
  (forall q, store f v q = None) ->
  ParseSamplingParams (Some (JObject ms)) = Err UnmarshalSamplingParams.
Proof.
  intros Hlk Hst. apply ParseSamplingParams_rejected.
  rewrite Unmarshal_object.
  destruct (decode_members ms samplingParams_zero) as [p|] eqn:Hdec;
    [|reflexivity].
  destruct (decode_members_present f _ _ _ _ Hdec Hlk) as (q & q' & Hq & _).
  rewrite Hst in Hq. discriminate.
Qed.

(** C9 (as amended). Whenever the sampling parameters decode, a numeric
    member was read into its Go type and passed on with no bounds check:
    max_tokens and n are integer literals within 64 bits, cut to their low 32
    bits; seed is an integer literal within 32 bits, passed unchanged;
    temperature, top_p and the two penalties are the float32 nearest to the
    literal. A numeric member that fits its Go type never makes a body fail
    whose other members decode. One that does not fit (not an integer literal
    within 64 bits for max_tokens and n, not within 32 bits for seed, beyond
    the float32 range for the others) makes the extraction fail with the
    unmarshalling error wherever it stands in the body, also before a later
    member of the same field. That error is a MalformedInput, and
    ParseRequest fails with it provided the canonical extraction succeeds
    and yields a chat-completion view. *)
Theorem C9_numeric_narrowing :
  (forall ms sp st,
      ParseSamplingParams (Some (JObject ms)) = Ok (sp, st) ->
      (forall lit, lookup_field FMaxTokens ms = Some (JNumber lit) ->
                   exists i, strconv.ParseInt lit 64 = Some i /\
                             - 2 ^ 63 <= i < 2 ^ 63 /\
                             vllm.MaxTokens sp = Some (i mod 2 ^ 32)) /\
      (forall lit, lookup_field FN ms = Some (JNumber lit) ->
                   exists i, strconv.ParseInt lit 64 = Some i /\
                             - 2 ^ 63 <= i < 2 ^ 63 /\
                             vllm.N sp = i mod 2 ^ 32) /\
      (forall lit, lookup_field FSeed ms = Some (JNumber lit) ->
                   exists i, strconv.ParseInt lit 64 = Some i /\
                             - 2 ^ 31 <= i < 2 ^ 31 /\
                             vllm.Seed sp = Some i) /\
      (forall lit, lookup_field FTemperature ms = Some (JNumber lit) ->
                   exists f, strconv.ParseFloat lit 32 = Some f /\
                             vllm.Temperature sp = Some f) /\
      (forall lit, lookup_field FTopP ms = Some (JNumber lit) ->
                   exists f, strconv.ParseFloat lit 32 = Some f /\
                             vllm.TopP sp = f) /\
      (forall lit, lookup_field FFrequencyPenalty ms = Some (JNumber lit) ->
                   exists f, strconv.ParseFloat lit 32 = Some f /\
                             vllm.FrequencyPenalty sp = f) /\
      (forall lit, lookup_field FPresencePenalty ms = Some (JNumber lit) ->
                   exists f, strconv.ParseFloat lit 32 = Some f /\
                             vllm.PresencePenalty sp = f)) /\
  (forall ms1 ms2 key f lit,
      field_of_key key = Some f ->
      is_Some (Unmarshal (Some (JObject (ms1 ++ ms2)))) ->
      ((f = FMaxTokens \/ f = FN) /\ is_Some (strconv.ParseInt lit 64)) \/
      (f = FSeed /\ exists i, strconv.ParseInt lit 64 = Some i /\
                              - 2 ^ 31 <= i < 2 ^ 31) \/
      ((f = FTemperature \/ f = FTopP \/ f = FFrequencyPenalty
        \/ f = FPresencePenalty) /\ is_Some (strconv.ParseFloat lit 32)) ->
      is_Some (Unmarshal (Some (JObject (ms1 ++ (key, JNumber lit) :: ms2))))) /\
  (forall ms1 ms2 key f lit,
      field_of_key key = Some f ->
      (f = FMaxTokens \/ f = FN) ->
      strconv.ParseInt lit 64 = None ->
      ParseSamplingParams (Some (JObject (ms1 ++ (key, JNumber lit) :: ms2)))
      = Err UnmarshalSamplingParams) /\
  (forall ms1 ms2 key lit,
      field_of_key key = Some FSeed ->
      (forall i, strconv.ParseInt lit 64 = Some i ->
                 ~ (- 2 ^ 31 <= i < 2 ^ 31)) ->
      ParseSamplingParams (Some (JObject (ms1 ++ (key, JNumber lit) :: ms2)))
      = Err UnmarshalSamplingParams) /\
  (forall ms1 ms2 key f lit,
      field_of_key key = Some f ->
      (f = FTemperature \/ f = FTopP \/ f = FFrequencyPenalty
       \/ f = FPresencePenalty) ->
      strconv.ParseFloat lit 32 = None ->
      ParseSamplingParams (Some (JObject (ms1 ++ (key, JNumber lit) :: ms2)))
      = Err UnmarshalSamplingParams) /\
  (forall (key : string) (Content : Type) (PlainText : Content -> string)
          (ExtractRequestBody :
             option value -> gmap string string ->
             result error (scheduling.LLMRequestBody Content))
          (proto_Marshal : vllm.GenerateRequest -> option string)
          (headers : gmap string string) (body : option value)
          (rand : uuid.Reader)
          (extractedBody : scheduling.LLMRequestBody Content),
      ExtractRequestBody body headers = Ok extractedBody ->
      is_Some (scheduling.ChatCompletions extractedBody) ->
      ParseSamplingParams body = Err UnmarshalSamplingParams ->
      vllm_grpc.ParseRequest key Content PlainText ExtractRequestBody
        proto_Marshal headers body rand
      = Err UnmarshalSamplingParams) /\
  category_of UnmarshalSamplingParams = Some MalformedInput.
Proof.
  split; [|split; [|split; [|split; [|split; [|split]]]]].
  - intros ms sp st Hok.
    apply ParseSamplingParams_Ok_inv in Hok as (p & Hdec & -> & _).
    rewrite Unmarshal_object in Hdec.
    pose proof (decoded_MaxTokens _ _ Hdec) as Hmt.
    pose proof (decoded_N _ _ Hdec) as Hn.
    pose proof (decoded_Seed _ _ Hdec) as Hse.
    pose proof (decoded_Temperature _ _ Hdec) as Hte.
    pose proof (decoded_TopP _ _ Hdec) as Htp.
    pose proof (decoded_FrequencyPenalty _ _ Hdec) as Hfp.
    pose proof (decoded_PresencePenalty _ _ Hdec) as Hpp.
    unfold sampling_of; simpl.
    repeat apply conj; intros lit Hlk.
    + rewrite Hlk in Hmt. cbn [from_option] in Hmt.
      apply decode_int_Some in Hmt
        as [[[=] _] | (lit' & i & [= <-] & Hi & _ & ->)].
      exists i. pose proof (ParseInt_range _ _ Hi). auto.
    + rewrite Hlk in Hn. cbn [from_option] in Hn.
      apply decode_int_Some in Hn
        as [[[=] _] | (lit' & i & [= <-] & Hi & _ & ->)].
      exists i. pose proof (ParseInt_range _ _ Hi). auto.
    + rewrite Hlk in Hse. cbn [from_option] in Hse.
      apply decode_int_Some in Hse
        as [[[=] _] | (lit' & i & [= <-] & Hi & Hfit & ->)].
      exists i. pose proof (wrap_signed_32_fits _ Hfit). auto.
    + rewrite Hlk in Hte. cbn [from_option] in Hte.
      apply decode_float32_Some in Hte
        as [[[=] _] | (lit' & f & [= <-] & Hf & ->)].
      exists f. auto.
    + rewrite Hlk in Htp. cbn [from_option] in Htp.
      apply decode_float32_Some in Htp
        as [[[=] _] | (lit' & f & [= <-] & Hf & ->)].
      exists f. auto.
    + rewrite Hlk in Hfp. cbn [from_option] in Hfp.
      apply decode_float32_Some in Hfp
        as [[[=] _] | (lit' & f & [= <-] & Hf & ->)].
      exists f. auto.
    + rewrite Hlk in Hpp. cbn [from_option] in Hpp.
      apply decode_float32_Some in Hpp
        as [[[=] _] | (lit' & f & [= <-] & Hf & ->)].
      exists f. auto.
  - intros ms1 ms2 key f lit Hkey Hrest Hfit.
    apply (member_accepted f); [assumption | | assumption].
    destruct Hfit as [[Hf [i Hi]] | [[-> (i & Hi & Hr)] | [Hf [x Hx]]]].
    + pose proof (ParseInt_range _ _ Hi) as Hr.
      assert (Hw : GoInt.wrap_signed 64 i = i).
      { unfold GoInt.wrap_signed. change (64 - 1) with 63.
        rewrite Z.mod_small; lia. }
      destruct Hf as [-> | ->]; unfold store, decode_int;
        rewrite Hi, Hw, Z.eqb_refl; simpl; eauto.
    + assert (Hw : GoInt.wrap_signed 32 i = i).
      { unfold GoInt.wrap_signed. change (32 - 1) with 31.
        rewrite Z.mod_small; lia. }
      unfold store, decode_int. rewrite Hi, Hw, Z.eqb_refl. simpl. eauto.
    + destruct Hf as [-> | [-> | [-> | ->]]]; unfold store, decode_float32;
        rewrite Hx; simpl; eauto.
  - intros ms1 ms2 key f lit Hkey Hf Hlit. apply (member_rejected f);
      [assumption|].
    destruct Hf as [-> | ->]; unfold store, decode_int;
      rewrite Hlit; reflexivity.
  - intros ms1 ms2 key lit Hkey Hlit. apply (member_rejected FSeed);
      [assumption|].
    unfold store, decode_int.
    destruct (strconv.ParseInt lit 64) as [i|] eqn:Hi; [|reflexivity].
    destruct (Z.eqb_spec (GoInt.wrap_signed 32 i) i) as [Hfit|]; [|reflexivity].
    exfalso. apply (Hlit i eq_refl). apply wrap_signed_32_fits. assumption.
  - intros ms1 ms2 key f lit Hkey Hf Hlit. apply (member_rejected f);
      [assumption|].
    destruct Hf as [-> | [-> | [-> | ->]]];
      unfold store, decode_float32; rewrite Hlit; reflexivity.
  - intros key Content PlainText ExtractRequestBody proto_Marshal headers
      body rand extractedBody Hext [chat Hchat] Herr.
    unfold vllm_grpc.ParseRequest. rewrite Hext. simpl.
    unfold vllm_grpc.TranscodeJsonToGrpc, vllm_grpc.ExtractCombinedPrompt.
    rewrite Hchat. simpl. rewrite Herr. reflexivity.
  - reflexivity.
Qed.

End Narrowing.

Lemma C9_numeric_narrowing_witness :
  match vllm_grpc.ParseSamplingParams
          (Some (JObject [("max_tokens", JNumber "-1");
                          ("n", JNumber "4294967298");
                          ("seed", JNumber "-2147483648")])) with
  | Ok (sp, _) =>
      vllm.MaxTokens sp = Some 4294967295 /\ vllm.N sp = 2 /\
      vllm.Seed sp = Some (-2147483648)
  | Err _ => False
  end /\
  is_Some
    (vllm_grpc.Unmarshal
       (Some (JObject ([("messages", JArray [])]
                       ++ ("max_tokens", JNumber "-1") :: [])))) /\
  vllm_grpc.ParseSamplingParams
    (Some (JObject ([] ++ ("max_tokens", JNumber "9223372036854775808")
                       :: [])))
  = Err UnmarshalSamplingParams /\
  vllm_grpc.ParseSamplingParams
    (Some (JObject ([] ++ ("seed", JNumber "2147483648")
                       :: [("seed", JNumber "5")])))
  = Err UnmarshalSamplingParams /\
  vllm_grpc.ParseSamplingParams
    (Some (JObject ([] ++ ("temperature", JNumber "1e39") :: [])))
  = Err UnmarshalSamplingParams /\
  vllm_grpc.ParseRequest "x-request-id" string (fun c => c)
    (fun _ _ => Ok (chat_body [text_message "user" "Hello"]))
    (fun _ => Some "")
    ({[ ":path" := "/v1/chat/completions" ]} : gmap string string)
    (Some (JObject [("model", JString "llama-2");
                    ("messages",
                     JArray [JObject [("role", JString "user");
                                      ("content", JString "Hello")]]);
                    ("seed", JNumber "2147483648")]))
    (fun _ => 0)
  = Err UnmarshalSamplingParams.
Proof.
  split; [|split; [|split; [|split; [|split]]]].
  - destruct (vllm_grpc.ParseSamplingParams
                (Some (JObject [("max_tokens", JNumber "-1");
                                ("n", JNumber "4294967298");
                                ("seed", JNumber "-2147483648")])))
      as [[sp st]|e] eqn:Hok; [|vm_compute in Hok; discriminate].
    destruct (proj1 C9_numeric_narrowing _ _ _ Hok) as (Hmt & Hn & Hse & _).
    destruct (Hmt "-1" eq_refl) as (i & Hi & _ & ->).
    destruct (Hn "4294967298" eq_refl) as (j & Hj & _ & ->).
    destruct (Hse "-2147483648" eq_refl) as (k & Hk & _ & ->).
    vm_compute in Hi, Hj, Hk.
    injection Hi as <-. injection Hj as <-. injection Hk as <-.
    repeat split.
  - apply (proj1 (proj2 C9_numeric_narrowing) [("messages", JArray [])] []
             "max_tokens" vllm_grpc.FMaxTokens "-1").
    + reflexivity.
    + vm_compute. eauto.
    + left. split; [left; reflexivity | vm_compute; eauto].
  - apply (proj1 (proj2 (proj2 C9_numeric_narrowing)) [] [] "max_tokens"
             vllm_grpc.FMaxTokens "9223372036854775808");
      [reflexivity | left; reflexivity | reflexivity].
  - apply (proj1 (proj2 (proj2 (proj2 C9_numeric_narrowing))) []
             [("seed", JNumber "5")] "seed" "2147483648"); [reflexivity|].
    intros i Hi. vm_compute in Hi. injection Hi as <-. lia.
  - apply (proj1 (proj2 (proj2 (proj2 (proj2 C9_numeric_narrowing)))) [] []
             "temperature" vllm_grpc.FTemperature "1e39");
      [reflexivity | left; reflexivity | reflexivity].
  - apply (proj1 (proj2 (proj2 (proj2 (proj2 (proj2 C9_numeric_narrowing)))))
             "x-request-id" string (fun c => c)
             (fun _ _ => Ok (chat_body [text_message "user" "Hello"]))
             (fun _ => Some "") _ _ (fun _ => 0)
             (chat_body [text_message "user" "Hello"])).
    + reflexivity.
    + vm_compute. eauto.
    + reflexivity.
Defined.

(** C9 as stated fails: a seed of 2147483648, a max_tokens of
    9223372036854775808 and a temperature of 1e39 are out-of-range numbers
    in a valid JSON body, and each makes the request parsing fail. *)
Lemma C9_out_of_range_number_is_rejected :
  valid (JObject [("model", JString "llama-2");
                  ("messages", JArray [JObject [("role", JString "user");
                                               ("content", JString "Hello")]]);
                  ("seed", JNumber "2147483648")]) = true /\
  vllm_grpc.TranscodeJsonToGrpc "x-request-id" string (fun c => c)
    ({[ ":path" := "/v1/chat/completions" ]} : gmap string string)
    (Some (JObject [("model", JString "llama-2");
                    ("messages",
                     JArray [JObject [("role", JString "user");
                                      ("content", JString "Hello")]]);
                    ("seed", JNumber "2147483648")]))
    (chat_body [text_message "user" "Hello"]) (fun _ => 0)
  = Err UnmarshalSamplingParams /\
  vllm_grpc.ParseRequest "x-request-id" string (fun c => c)
    (fun _ _ => Ok (chat_body [text_message "user" "Hello"]))
    (fun _ => Some "")
    ({[ ":path" := "/v1/chat/completions" ]} : gmap string string)
    (Some (JObject [("model", JString "llama-2");
                    ("messages",
                     JArray [JObject [("role", JString "user");
                                      ("content", JString "Hello")]]);
                    ("seed", JNumber "2147483648")]))
    (fun _ => 0)
  = Err UnmarshalSamplingParams /\
  vllm_grpc.ParseSamplingParams
    (Some (JObject [("messages", JArray []);
                    ("max_tokens", JNumber "9223372036854775808")]))
  = Err UnmarshalSamplingParams /\
  vllm_grpc.ParseSamplingParams
    (Some (JObject [("messages", JArray []);
                    ("temperature", JNumber "1e39")]))
  = Err UnmarshalSamplingParams.
Proof. repeat split. Qed.

(** ** Streaming *)

(** C4 (as amended). Provided the canonical extraction succeeds and yields a
    chat-completion view: when the sampling parameters decode with a true
    stream flag, ParseRequest fails with the streaming error, an
    UnsupportedFeature; when they do not decode, it fails with the
    unmarshalling error, a MalformedInput. Whenever ParseRequest succeeds,
    its payload is the serialization of a GenerateRequest whose stream flag
    is false. *)
Theorem C4_streaming_is_rejected
    (key : string) (Content : Type) (PlainText : Content -> string)
    (ExtractRequestBody :
       option value -> gmap string string ->
       result error (scheduling.LLMRequestBody Content))
    (proto_Marshal : vllm.GenerateRequest -> option string)
    (headers : gmap string string) (body : option value)
    (rand : uuid.Reader) (extractedBody : scheduling.LLMRequestBody Content) :
  ExtractRequestBody body headers = Ok extractedBody ->
  is_Some (scheduling.ChatCompletions extractedBody) ->
  (forall sp, vllm_grpc.ParseSamplingParams body = Ok (sp, true) ->
              vllm_grpc.ParseRequest key Content PlainText ExtractRequestBody
                proto_Marshal headers body rand
              = Err StreamingNotImplemented) /\
  category_of StreamingNotImplemented = Some UnsupportedFeature /\
  (forall e, vllm_grpc.ParseSamplingParams body = Err e ->
             vllm_grpc.ParseRequest key Content PlainText ExtractRequestBody
               proto_Marshal headers body rand = Err e /\
             category_of e = Some MalformedInput) /\
  (forall out,
      vllm_grpc.ParseRequest key Content PlainText ExtractRequestBody
        proto_Marshal headers body rand = Ok out ->
      exists req protoBody,
        vllm_grpc.TranscodeJsonToGrpc key Content PlainText headers body
          extractedBody rand = Ok req /\
        vllm.Stream req = false /\
        proto_Marshal req = Some protoBody /\
        scheduling.ParsedBody out = scheduling.ProtoBytes protoBody).
Proof.
  intros Hext [chat Hchat].
  unfold vllm_grpc.ParseRequest. rewrite Hext. simpl.
  unfold vllm_grpc.TranscodeJsonToGrpc, vllm_grpc.ExtractCombinedPrompt.
  rewrite Hchat. simpl.
  split; [|split; [|split]].
  - intros sp ->. reflexivity.
  - reflexivity.
  - intros e He. rewrite He. simpl. split; [reflexivity|].
    apply ParseSamplingParams_Err_inv in He as [-> _]. reflexivity.
  - intros out.
    destruct (vllm_grpc.ParseSamplingParams body) as [[sp st]|e]; simpl;
      [|discriminate].
    destruct st; simpl; [discriminate|].
    match goal with
    | |- context [proto_Marshal ?r] =>
        destruct (proto_Marshal r) as [protoBody|] eqn:Hm
    end; [|discriminate].
    intros [= <-]. eexists _, protoBody.
    repeat split. exact Hm.
Qed.

Lemma C4_streaming_is_rejected_witness :
  vllm_grpc.ParseRequest "x-request-id" string (fun c => c)
    (fun _ _ => Ok (chat_body [text_message "user" "Hi"]))
    (fun _ => Some "") ∅
    (Some (JObject [("model", JString "gpt-4");
                    ("messages",
                     JArray [JObject [("role", JString "user");
                                      ("content", JString "Hi")]]);
                    ("stream", JBool true)]))
    (fun _ => 0)
  = Err StreamingNotImplemented /\
  vllm_grpc.ParseRequest "x-request-id" string (fun c => c)
    (fun _ _ => Ok (chat_body [text_message "user" "Hi"]))
    (fun _ => Some "") ∅
    (Some (JObject [("messages", JArray []); ("stream", JNumber "1")]))
    (fun _ => 0)
  = Err UnmarshalSamplingParams.
Proof.
  split.
  - eapply (proj1 (C4_streaming_is_rejected "x-request-id" string (fun c => c)
                     (fun _ _ => Ok (chat_body [text_message "user" "Hi"]))
                     (fun _ => Some "") ∅ _ (fun _ => 0) _ eq_refl
                     ltac:(vm_compute; eauto))).
    vm_compute. reflexivity.
  - eapply (proj1 (proj2 (proj2 (C4_streaming_is_rejected "x-request-id"
                     string (fun c => c)
                     (fun _ _ => Ok (chat_body [text_message "user" "Hi"]))
                     (fun _ => Some "") ∅ _ (fun _ => 0) _ eq_refl
                     ltac:(vm_compute; eauto))))).
    vm_compute. reflexivity.
Defined.

(** C4 as stated fails: a body without a chat-completion view whose sampling
    parameters decode with a true stream flag is rejected by the prompt
    combination, with an UnsupportedInput error, before the stream flag is
    looked at. *)
Lemma C4_stream_true_without_chat_view :
  stream_result
    (vllm_grpc.ParseSamplingParams
       (Some (JObject [("model", JString "m"); ("prompt", JString "hi");
                       ("stream", JBool true)]))) = Some true /\
  vllm_grpc.TranscodeJsonToGrpc "x-request-id" string (fun c => c) ∅
    (Some (JObject [("model", JString "m"); ("prompt", JString "hi");
                    ("stream", JBool true)]))
    other_body (fun _ => 0)
  = Err NotChatCompletions /\
  vllm_grpc.ParseRequest "x-request-id" string (fun c => c)
    (fun _ _ => Ok other_body) (fun _ => Some "") ∅
    (Some (JObject [("model", JString "m"); ("prompt", JString "hi");
                    ("stream", JBool true)]))
    (fun _ => 0)
  = Err NotChatCompletions /\
  category_of NotChatCompletions = Some UnsupportedInput.
Proof. repeat split. Qed.

(** * Further properties of the two parsers *)

(** ** Responses of the transcoding parser *)

(** X1. Whatever ParseResponse returns for a unary response,
    ParseStreamResponse returns for the same bytes taken as a stream chunk:
    a terminal section is read the same way by both. *)
Theorem stream_response_extends_unary (k : GoInt.kind)
    (body : option vllm.GenerateResponse) (r : payloadprocess.ParsedResponse) :
  vllm_grpc.ParseResponse k body = Ok r ->
  vllm_grpc.ParseStreamResponse k body = Ok r.
Proof.
  unfold vllm_grpc.ParseResponse, vllm_grpc.ParseStreamResponse.
  destruct body as [resp|]; [|discriminate].
  destruct (vllm.GetComplete resp) as [complete|]; [|discriminate].
  intros H. exact H.
Qed.

Lemma stream_response_extends_unary_witness :
  vllm_grpc.ParseResponse GoInt.Uint32 (complete_response 10 20)
  = Ok (usage_response 10 20 30) /\
  vllm_grpc.ParseStreamResponse GoInt.Uint32 (complete_response 10 20)
  = Ok (usage_response 10 20 30).
Proof.
  split; [reflexivity|].
  apply (stream_response_extends_unary GoInt.Uint32 (complete_response 10 20)).
  reflexivity.
Defined.

(** X2. ParseStreamResponse fails in two cases only: with the unmarshalling
    error when the chunk does not decode, and with the no-usage error when
    the decoded message carries neither a complete nor a chunk section. *)
Theorem stream_response_failures (k : GoInt.kind)
    (chunk : option vllm.GenerateResponse) (e : error) :
  vllm_grpc.ParseStreamResponse k chunk = Err e <->
  (chunk = None /\ e = UnmarshalChunk) \/
  (chunk = Some {| vllm.Response := None |} /\ e = NoUsageInChunk).
Proof.
  unfold vllm_grpc.ParseStreamResponse, vllm.GetComplete, vllm.GetChunk.
  split.
  - destruct chunk as [[[[ch|complete]|]]|]; simpl; try discriminate.
    + intros [= <-]. right. auto.
    + intros [= <-]. left. auto.
  - intros [[-> ->] | [-> ->]]; reflexivity.
Qed.

(** X3. Whenever ParseStreamResponse succeeds, the ParsedResponse carries a
    usage, read from the complete section when there is one and from the
    chunk section otherwise: its prompt and completion counts are the two
    counters of that section converted to int. *)
Theorem stream_response_usage (k : GoInt.kind)
    (resp : vllm.GenerateResponse) (r : payloadprocess.ParsedResponse) :
  vllm_grpc.ParseStreamResponse k (Some resp) = Ok r ->
  exists u p c,
    payloadprocess.Usage r = Some u /\
    requestcontrol.PromptTokens u = GoInt.int p /\
    requestcontrol.CompletionTokens u = GoInt.int c /\
    requestcontrol.TotalTokens u = GoInt.int (GoInt.add k p c) /\
    match vllm.GetComplete resp with
    | Some complete =>
        p = vllm.Complete_PromptTokens complete /\
        c = vllm.Complete_CompletionTokens complete
    | None =>
        exists ch, vllm.GetChunk resp = Some ch /\
                   p = vllm.Chunk_PromptTokens ch /\
                   c = vllm.Chunk_CompletionTokens ch
    end.
Proof.
  unfold vllm_grpc.ParseStreamResponse.
  destruct (vllm.GetComplete resp) as [complete|] eqn:Hc.
  - intros [= <-]. eexists _, _, _. simpl. repeat split.
  - destruct (vllm.GetChunk resp) as [ch|] eqn:Hch; [|discriminate].
    intros [= <-]. eexists _, _, _. simpl. repeat split. eauto.
Qed.

Lemma stream_response_usage_witness :
  exists u,
    vllm_grpc.ParseStreamResponse GoInt.Uint32 (chunk_response 7 5)
    = Ok {| payloadprocess.Usage := Some u |} /\
    requestcontrol.PromptTokens u = 7 /\
    requestcontrol.CompletionTokens u = 5 /\
    requestcontrol.TotalTokens u = 12.
Proof.
  destruct (stream_response_usage GoInt.Uint32
              {| vllm.Response :=
                   Some (vllm.GenerateResponse_Chunk
                           {| vllm.Chunk_PromptTokens := 7;
                              vllm.Chunk_CompletionTokens := 5 |}) |}
              (usage_response 7 5 12) eq_refl)
    as (u & p & c & Hu & Hp & Hc & Ht & ch & Hch & -> & ->).
  exists u. injection Hu as <-. repeat split.
Defined.

(** X4. With unsigned 32-bit counters within their range, the usage of a
    stream chunk, from either section, has the two counts unchanged and as
    total their sum modulo 2^32: a total between 0 and 2^32 - 1 that never
    exceeds the sum, and equals it exactly when the sum is below 2^32. *)
Theorem stream_usage_with_uint32_counters (p c : Z) :
  GoInt.in_range GoInt.Uint32 p -> GoInt.in_range GoInt.Uint32 c ->
  vllm_grpc.ParseStreamResponse GoInt.Uint32 (chunk_response p c)
  = Ok (usage_response p c ((p + c) mod 2 ^ 32)) /\
  vllm_grpc.ParseStreamResponse GoInt.Uint32 (complete_response p c)
  = Ok (usage_response p c ((p + c) mod 2 ^ 32)) /\
  0 <= (p + c) mod 2 ^ 32 < 2 ^ 32 /\
  (p + c) mod 2 ^ 32 <= p + c /\
  ((p + c) mod 2 ^ 32 = p + c <-> p + c < 2 ^ 32).
Proof.
  unfold GoInt.in_range. simpl. intros Hp Hc.
  pose proof (Z.mod_pos_bound (p + c) (2 ^ 32) ltac:(lia)) as Hm.
  assert (Hle : (p + c) mod 2 ^ 32 <= p + c) by (apply Z.mod_le; lia).
  unfold vllm_grpc.ParseStreamResponse, chunk_response, complete_response,
    usage_response. simpl.
  unfold GoInt.add. simpl. unfold GoInt.wrap_unsigned.
  rewrite (int_id p), (int_id c), (int_id ((p + c) mod 2 ^ 32)) by lia.
  repeat split; try lia.
  intros Hlt. apply Z.mod_small. lia.
Qed.

Lemma stream_usage_with_uint32_counters_witness :
  vllm_grpc.ParseStreamResponse GoInt.Uint32 (chunk_response 4294967295 2)
  = Ok (usage_response 4294967295 2 1) /\
  vllm_grpc.ParseStreamResponse GoInt.Uint32 (complete_response 4294967295 2)
  = Ok (usage_response 4294967295 2 1).
Proof.
  destruct (stream_usage_with_uint32_counters 4294967295 2)
    as (H1 & H2 & _).
  - unfold GoInt.in_range. simpl. lia.
  - unfold GoInt.in_range. simpl. lia.
  - split; [exact H1 | exact H2].
Defined.

(** X5. Whatever the counter type, when the two counters are within its
    range and so is their sum, ParseResponse returns the two counts and
    their sum. *)
Theorem unary_usage_when_sum_fits (k : GoInt.kind) (p c : Z) :
  GoInt.in_range k p -> GoInt.in_range k c -> GoInt.in_range k (p + c) ->
  p + c < 2 ^ 63 ->
  exists u,
    vllm_grpc.ParseResponse k (complete_response p c)
    = Ok {| payloadprocess.Usage := Some u |} /\
    requestcontrol.TotalTokens u
    = requestcontrol.PromptTokens u + requestcontrol.CompletionTokens u /\
    requestcontrol.PromptTokens u = p /\
    requestcontrol.CompletionTokens u = c.
Proof.
  intros Hp Hc Hs Hlt.
  rewrite parse_response_when_sum_fits by assumption.
  eexists. split; [reflexivity|]. simpl.
  assert (- 2 ^ 63 <= p < 2 ^ 63 /\ - 2 ^ 63 <= c < 2 ^ 63) as [Hp' Hc'].
  { unfold GoInt.in_range in *. destruct k; simpl in *; lia. }
  rewrite !int_id by assumption. auto.
Qed.

Lemma unary_usage_when_sum_fits_witness :
  exists u,
    vllm_grpc.ParseResponse GoInt.Int32 (complete_response 2147483000 647)
    = Ok {| payloadprocess.Usage := Some u |} /\
    requestcontrol.TotalTokens u = 2147483647.
Proof.
  destruct (unary_usage_when_sum_fits GoInt.Int32 2147483000 647)
    as (u & Hu & Ht & Hp & Hc).
  - unfold GoInt.in_range. simpl. lia.
  - unfold GoInt.in_range. simpl. lia.
  - unfold GoInt.in_range. simpl. lia.
  - lia.
  - exists u. split; [exact Hu|]. rewrite Ht, Hp, Hc. reflexivity.
Defined.

(** ** Requests of the transcoding parser *)

(** X6. ParseRequest succeeds exactly when the canonical extraction
    succeeds, the prompt combines, the sampling parameters decode with a
    false stream flag and the request serializes. The payload is then the
    serialization of the request made of the request identifier, the combined
    prompt as text input, the sampling parameters and a false stream flag,
    and the chat-completion view is the extracted one. *)
Theorem parse_request_success
    (key : string) (Content : Type) (PlainText : Content -> string)
    (ExtractRequestBody :
       option value -> gmap string string ->
       result error (scheduling.LLMRequestBody Content))
    (proto_Marshal : vllm.GenerateRequest -> option string)
    (headers : gmap string string) (body : option value)
    (rand : uuid.Reader) (out : scheduling.LLMRequestBody Content) :
  vllm_grpc.ParseRequest key Content PlainText ExtractRequestBody
    proto_Marshal headers body rand = Ok out <->
  exists extractedBody prompt sp protoBody,
    ExtractRequestBody body headers = Ok extractedBody /\
    vllm_grpc.ExtractCombinedPrompt Content PlainText extractedBody
    = Ok prompt /\
    vllm_grpc.ParseSamplingParams body = Ok (sp, false) /\
    proto_Marshal
      (generate_request (vllm_grpc.ExtractRequestID key headers rand) prompt sp)
    = Some protoBody /\
    out = {| scheduling.ChatCompletions :=
               scheduling.ChatCompletions extractedBody;
             scheduling.ParsedBody := scheduling.ProtoBytes protoBody |}.
Proof.
  unfold vllm_grpc.ParseRequest, vllm_grpc.TranscodeJsonToGrpc,
    generate_request.
  split.
  - destruct (ExtractRequestBody body headers) as [eb|e]; simpl;
      [|discriminate].
    destruct (vllm_grpc.ExtractCombinedPrompt Content PlainText eb)
      as [prompt|e] eqn:Hp; simpl; [|discriminate].
    destruct (vllm_grpc.ParseSamplingParams body) as [[sp st]|e]; simpl;
      [|discriminate].
    destruct st; simpl; [discriminate|].
    match goal with
    | |- context [proto_Marshal ?r] =>
        destruct (proto_Marshal r) as [protoBody|] eqn:Hm
    end; [|discriminate].
    intros [= <-]. exists eb, prompt, sp, protoBody.
    repeat split; assumption.
  - intros (eb & prompt & sp & protoBody & -> & Hp & Hs & Hm & ->). simpl.
    rewrite Hp. simpl. rewrite Hs. simpl. rewrite Hm. reflexivity.
Qed.

(** X7. ParseRequest fails in five cases only, tried in this order: the
    canonical extraction fails, and its error is returned as it is; the
    extracted body has no chat-completion view; the sampling parameters do
    not decode; the stream flag is true; the request does not serialize. *)
Theorem parse_request_failure
    (key : string) (Content : Type) (PlainText : Content -> string)
    (ExtractRequestBody :
       option value -> gmap string string ->
       result error (scheduling.LLMRequestBody Content))
    (proto_Marshal : vllm.GenerateRequest -> option string)
    (headers : gmap string string) (body : option value)
    (rand : uuid.Reader) (e : error) :
  vllm_grpc.ParseRequest key Content PlainText ExtractRequestBody
    proto_Marshal headers body rand = Err e <->
  ExtractRequestBody body headers = Err e \/
  exists extractedBody,
    ExtractRequestBody body headers = Ok extractedBody /\
    ((scheduling.ChatCompletions extractedBody = None /\
      e = NotChatCompletions) \/
     exists prompt,
       vllm_grpc.ExtractCombinedPrompt Content PlainText extractedBody
       = Ok prompt /\
       ((vllm_grpc.Unmarshal body = None /\ e = UnmarshalSamplingParams) \/
        (exists sp, vllm_grpc.ParseSamplingParams body = Ok (sp, true) /\
                    e = StreamingNotImplemented) \/
        (exists sp, vllm_grpc.ParseSamplingParams body = Ok (sp, false) /\
                    proto_Marshal
                      (generate_request
                         (vllm_grpc.ExtractRequestID key headers rand)
                         prompt sp) = None /\
                    e = MarshalProto))).
Proof.
  unfold vllm_grpc.ParseRequest, vllm_grpc.TranscodeJsonToGrpc,
    generate_request.
  split.
  - destruct (ExtractRequestBody body headers) as [eb|e0]; simpl;
      [|intros [= <-]; auto].
    intros H. right. exists eb. split; [reflexivity|]. revert H.
    unfold vllm_grpc.ExtractCombinedPrompt.
    destruct (scheduling.ChatCompletions eb) as [chat|]; simpl;
      [|intros [= <-]; auto].
    intros H. right. eexists. split; [reflexivity|]. revert H.
    destruct (vllm_grpc.ParseSamplingParams body) as [[sp st]|e0] eqn:Hs;
      simpl.
    + destruct st; simpl.
      * intros [= <-]. right. left. eauto.
      * match goal with
        | |- context [proto_Marshal ?r] =>
            destruct (proto_Marshal r) as [protoBody|] eqn:Hm
        end; [discriminate|].
        intros [= <-]. right. right. eauto.
    + intros [= <-]. left.
      apply ParseSamplingParams_Err_inv in Hs as [-> Hs]. auto.
  - intros [-> | (eb & -> & [[Hc ->] | (prompt & Hp & H)])]; simpl.
    + reflexivity.
    + unfold vllm_grpc.ExtractCombinedPrompt. rewrite Hc. reflexivity.
    + rewrite Hp. simpl.
      destruct H as [[Hu ->] | [(sp & Hs & ->) | (sp & Hs & Hm & ->)]].
      * rewrite (ParseSamplingParams_rejected _ Hu). reflexivity.
      * rewrite Hs. reflexivity.
      * rewrite Hs. simpl. rewrite Hm. reflexivity.
Qed.

(** X8. The transcoded request depends on the headers only through the
    request-ID header, and on the random source only when that header is
    absent. *)
Theorem transcode_reads_one_header
    (key : string) (Content : Type) (PlainText : Content -> string)
    (headers1 headers2 : gmap string string) (body : option value)
    (extractedBody : scheduling.LLMRequestBody Content)
    (rand1 rand2 : uuid.Reader) :
  headers1 !! key = headers2 !! key ->
  is_Some (headers1 !! key) \/ rand1 = rand2 ->
  vllm_grpc.TranscodeJsonToGrpc key Content PlainText headers1 body
    extractedBody rand1
  = vllm_grpc.TranscodeJsonToGrpc key Content PlainText headers2 body
      extractedBody rand2.
Proof.
  intros Hk Hr. unfold vllm_grpc.TranscodeJsonToGrpc.
  assert (Hid : vllm_grpc.ExtractRequestID key headers1 rand1
                = vllm_grpc.ExtractRequestID key headers2 rand2).
  { unfold vllm_grpc.ExtractRequestID. rewrite <- Hk.
    destruct (headers1 !! key) as [v|]; [reflexivity|].
    destruct Hr as [[v Hv] | ->]; [discriminate | reflexivity]. }
  rewrite Hid. reflexivity.
Qed.

Lemma transcode_reads_one_header_witness :
  vllm_grpc.TranscodeJsonToGrpc "x-request-id" string (fun c => c)
    {[ "x-request-id" := "req-1"; ":path" := "/v1/chat/completions" ]}
    (Some (JObject [("messages", JArray [])]))
    (chat_body [text_message "user" "Hi"]) (fun _ => 0)
  = vllm_grpc.TranscodeJsonToGrpc "x-request-id" string (fun c => c)
      {[ "x-request-id" := "req-1"; "content-type" := "application/json" ]}
      (Some (JObject [("messages", JArray [])]))
      (chat_body [text_message "user" "Hi"]) (fun _ => 255).
Proof.
  apply transcode_reads_one_header.
  - reflexivity.
  - left. vm_compute. eauto.
Defined.

(** ** Members of the request body and the decoded struct *)

Section Members.

Import vllm_grpc.

(** ParseSamplingParams reads the body through the decoder only. *)
Lemma ParseSamplingParams_ext (body1 body2 : option value) :
  Unmarshal body1 = Unmarshal body2 ->
  ParseSamplingParams body1 = ParseSamplingParams body2.
Proof. intros Heq. unfold ParseSamplingParams. now rewrite Heq. Qed.

(** Two runs of members that act alike on every struct can replace each
    other anywhere in an object. *)
Lemma Unmarshal_middle (ms1 mid mid' ms2 : list (string * value)) :
  (forall p, decode_members mid p = decode_members mid' p) ->
  Unmarshal (Some (JObject (ms1 ++ mid ++ ms2)))
  = Unmarshal (Some (JObject (ms1 ++ mid' ++ ms2))).
Proof.
  intros Hmid. rewrite !Unmarshal_object, !decode_members_app.
  destruct (decode_members ms1 samplingParams_zero) as [p|]; simpl;
    [|reflexivity].
  now rewrite !decode_members_app, Hmid.
Qed.

Ltac decoders :=
  repeat match goal with
         | |- context [decode_bool ?v _] => destruct v; simpl
         | |- context [decode_int ?b ?v] => destruct (decode_int b v); simpl
         | |- context [decode_float32 ?v] => destruct (decode_float32 v); simpl
         | |- context [valueInterface ?v] => destruct (valueInterface v); simpl
         end.

(** Stores into two different fields can be done in either order. *)
Lemma store_commute (f g : field) (v w : value) (p : samplingParams) :
  f <> g ->
  store f v p ≫= store g w = store g w p ≫= store f v.
Proof.
  intros Hne.
  destruct f, g; try congruence; unfold store; simpl; decoders; reflexivity.
Qed.

(** A store into a field other than the stream flag forgets what the field
    held. *)
Lemma store_overwrites (f : field) (v w : value) (p p1 : samplingParams) :
  f <> FStream -> store f v p = Some p1 -> store f w p1 = store f w p.
Proof.
  intros Hne Hst. destruct f; try congruence; unfold store in *;
    simplify_option_eq; reflexivity.
Qed.

(** A stored member that a later member of the same field overwrites leaves
    no trace. *)
Lemma decode_members_overwritten (f : field) (v : value)
    (ms : list (string * value)) :
  f <> FStream ->
  forall p p1,
    store f v p = Some p1 ->
    is_Some (lookup_field f ms) ->
    decode_members ms p1 = decode_members ms p.
Proof.
  intros Hne. induction ms as [|[key w] ms IH]; intros p p1 Hst Hlk.
  - destruct Hlk as [? [=]].
  - simpl in *. destruct (field_of_key key) as [g|] eqn:Hg.
    + destruct (decide (g = f)) as [->|Hgf].
      * now rewrite (store_overwrites _ _ _ _ _ Hne Hst).
      * assert (Hms : is_Some (lookup_field f ms)).
        { destruct (lookup_field f ms); [eauto|].
          case_bool_decide; [congruence | destruct Hlk as [? [=]]]. }
        pose proof (store_commute f g v w p (not_eq_sym Hgf)) as Hc.
        rewrite Hst in Hc. simpl in Hc. rewrite Hc.
        destruct (store g w p) as [p'|]; simpl; [|reflexivity].
        destruct (store_is_Some f v p p' ltac:(eauto)) as [p1' Hp1'].
        rewrite Hp1'. simpl. now apply IH.
    + apply (IH _ _ Hst).
      destruct (lookup_field f ms); [eauto|].
      case_bool_decide; [congruence | destruct Hlk as [? [=]]].
Qed.

(** X9. A member whose key is the tag of no field of the struct, up to case
    folding, is ignored: the body gives the same outcome with and without
    it. *)
Theorem unknown_member_is_ignored
    (ms1 ms2 : list (string * value)) (key : string) (v : value) :
  field_of_key key = None ->
  ParseSamplingParams (Some (JObject (ms1 ++ (key, v) :: ms2)))
  = ParseSamplingParams (Some (JObject (ms1 ++ ms2))).
Proof.
  intros Hkey. apply ParseSamplingParams_ext.
  apply (Unmarshal_middle ms1 [(key, v)] [] ms2).
  intros p. simpl. now rewrite Hkey.
Qed.

Lemma unknown_member_is_ignored_witness :
  field_of_key "model" = None /\
  ParseSamplingParams
    (Some (JObject ([("max_tokens", JNumber "5")]
                    ++ ("model", JString "llama-2") :: [("n", JNumber "2")])))
  = ParseSamplingParams
      (Some (JObject ([("max_tokens", JNumber "5")] ++ [("n", JNumber "2")]))).
Proof.
  split; [reflexivity|]. apply unknown_member_is_ignored. reflexivity.
Defined.

(** X10. Two adjacent members that are not decoded into the same field can
    be swapped: the body succeeds with the same message and stream flag in
    both orders, or fails in both. *)
Theorem members_of_different_fields_commute
    (ms1 ms2 : list (string * value)) (key1 key2 : string) (v1 v2 : value)
    (r : vllm.SamplingParams * bool) :
  field_of_key key1 <> field_of_key key2 ->
  ParseSamplingParams
    (Some (JObject (ms1 ++ (key1, v1) :: (key2, v2) :: ms2))) = Ok r <->
  ParseSamplingParams
    (Some (JObject (ms1 ++ (key2, v2) :: (key1, v1) :: ms2))) = Ok r.
Proof.
  intros Hne.
  assert (Heq : ParseSamplingParams
                  (Some (JObject (ms1 ++ (key1, v1) :: (key2, v2) :: ms2)))
                = ParseSamplingParams
                    (Some (JObject (ms1 ++ (key2, v2) :: (key1, v1) :: ms2)))).
  { apply ParseSamplingParams_ext.
    apply (Unmarshal_middle ms1 [(key1, v1); (key2, v2)]
             [(key2, v2); (key1, v1)] ms2).
    intros p. simpl.
    destruct (field_of_key key1) as [f|], (field_of_key key2) as [g|];
      try reflexivity.
    pose proof (store_commute f g v1 v2 p ltac:(congruence)) as Hc.
    destruct (store f v1 p) as [p1|], (store g v2 p) as [p2|]; simpl in *.
    - rewrite Hc. reflexivity.
    - rewrite Hc. reflexivity.
    - rewrite <- Hc. reflexivity.
    - reflexivity. }
  rewrite Heq. reflexivity.
Qed.

Lemma members_of_different_fields_commute_witness :
  ParseSamplingParams
    (Some (JObject ([] ++ ("n", JNumber "2") :: ("max_tokens", JNumber "7")
                       :: [("stop", JString "END")])))
  = Ok (with_Stop ["END"]
          (with_N 2 (with_MaxTokens (Some 7) default_sampling)), false) <->
  ParseSamplingParams
    (Some (JObject ([] ++ ("max_tokens", JNumber "7") :: ("n", JNumber "2")
                       :: [("stop", JString "END")])))
  = Ok (with_Stop ["END"]
          (with_N 2 (with_MaxTokens (Some 7) default_sampling)), false).
Proof.
  apply members_of_different_fields_commute. vm_compute. discriminate.
Defined.

(** X11. A member decoded into a field other than the stream flag, whose
    value can be stored, is irrelevant as soon as a later member is decoded
    into the same field: the last duplicate decides. *)
Theorem overwritten_member_is_irrelevant
    (ms1 ms2 : list (string * value)) (key : string) (v : value)
    (f : field) :
  field_of_key key = Some f ->
  f <> FStream ->
  is_Some (store f v samplingParams_zero) ->
  is_Some (lookup_field f ms2) ->
  ParseSamplingParams (Some (JObject (ms1 ++ (key, v) :: ms2)))
  = ParseSamplingParams (Some (JObject (ms1 ++ ms2))).
Proof.
  intros Hkey Hne Hst Hlk. apply ParseSamplingParams_ext.
  rewrite !Unmarshal_object, !decode_members_app.
  destruct (decode_members ms1 samplingParams_zero) as [p|]; simpl;
    [|reflexivity].
  rewrite Hkey.
  destruct (store_is_Some f v _ p Hst) as [p1 Hp1]. rewrite Hp1. simpl.
  now apply (decode_members_overwritten f v ms2 Hne).
Qed.

Lemma overwritten_member_is_irrelevant_witness :
  ParseSamplingParams
    (Some (JObject ([("n", JNumber "2")] ++ ("max_tokens", JNumber "5")
                      :: [("MAX_TOKENS", JNumber "7")])))
  = ParseSamplingParams
      (Some (JObject ([("n", JNumber "2")] ++ [("MAX_TOKENS", JNumber "7")]))).
Proof.
  apply (overwritten_member_is_irrelevant _ _ _ _ FMaxTokens).
  - reflexivity.
  - discriminate.
  - vm_compute. eauto.
  - vm_compute. eauto.
Defined.

(** X12. A null stream member changes nothing, wherever it stands: unlike
    the pointer fields and the stop field, which null resets, the flag keeps
    what an earlier member stored. *)
Theorem null_stream_member_is_ignored
    (ms1 ms2 : list (string * value)) (key : string) :
  field_of_key key = Some FStream ->
  ParseSamplingParams (Some (JObject (ms1 ++ (key, JNull) :: ms2)))
  = ParseSamplingParams (Some (JObject (ms1 ++ ms2))).
Proof.
  intros Hkey. apply ParseSamplingParams_ext.
  apply (Unmarshal_middle ms1 [(key, JNull)] [] ms2).
  intros p. simpl. rewrite Hkey. destruct p; reflexivity.
Qed.

Lemma null_stream_member_is_ignored_witness :
  ParseSamplingParams
    (Some (JObject ([("stream", JBool true)] ++ ("stream", JNull) :: [])))
  = ParseSamplingParams (Some (JObject ([("stream", JBool true)] ++ []))).
Proof. apply null_stream_member_is_ignored. reflexivity. Defined.

(** X13. Whenever the sampling parameters decode, the stream flag is false
    when no member is decoded into it, and the boolean of the last such
    member when that is a boolean; every member decoded into it is a boolean
    or null. *)
Theorem stream_flag_of_body
    (ms : list (string * value)) (sp : vllm.SamplingParams) (st : bool) :
  ParseSamplingParams (Some (JObject ms)) = Ok (sp, st) ->
  (lookup_field FStream ms = None -> st = false) /\
  (forall b, lookup_field FStream ms = Some (JBool b) -> st = b) /\
  (forall (ms1 ms2 : list (string * value)) key v,
      ms = (ms1 ++ (key, v) :: ms2)%list ->
      field_of_key key = Some FStream ->
      v = JNull \/ exists b, v = JBool b).
Proof.
  intros Hok.
  apply ParseSamplingParams_Ok_inv in Hok as (p & Hdec & -> & ->).
  rewrite Unmarshal_object in Hdec. split; [|split].
  - intros Hlk.
    pose proof (decode_members_absent FStream _ _ _ Hdec Hlk) as Hget.
    simpl in Hget. congruence.
  - intros b Hlk.
    destruct (decode_members_present FStream _ _ _ _ Hdec Hlk)
      as (q & q' & Hst & Hget).
    unfold store in Hst. simpl in Hst. injection Hst as <-.
    simpl in Hget. congruence.
  - intros ms1 ms2 key v -> Hkey.
    rewrite decode_members_app in Hdec.
    destruct (decode_members ms1 samplingParams_zero) as [p1|];
      simpl in Hdec; [|discriminate].
    rewrite Hkey in Hdec. unfold store in Hdec.
    destruct v; simpl in Hdec; try discriminate; eauto.
Qed.

Lemma stream_flag_of_body_witness :
  ParseSamplingParams
    (Some (JObject [("stream", JBool false); ("Stream", JBool true)]))
  = Ok (default_sampling, true) /\
  (forall b,
      lookup_field FStream [("stream", JBool false); ("Stream", JBool true)]
      = Some (JBool b) ->
      true = b).
Proof.
  assert (Hok : ParseSamplingParams
                  (Some (JObject [("stream", JBool false);
                                  ("Stream", JBool true)]))
                = Ok (default_sampling, true)) by reflexivity.
  split; [exact Hok|]. apply (stream_flag_of_body _ _ _ Hok).
Defined.

End Members.

(** ** The message built from the decoded struct *)

Section Message.

Import vllm_grpc.

Lemma decode_members_unknown (ms : list (string * value)) (p : samplingParams) :
  Forall (fun kv => field_of_key kv.1 = None) ms ->
  decode_members ms p = Some p.
Proof.
  induction 1 as [|[key v] ms Hkey _ IH]; simpl in *; [reflexivity|].
  now rewrite Hkey.
Qed.

Lemma ParseFloat_is_number (lit : string) (bits : Z) (f : spec_float) :
  strconv.ParseFloat lit bits = Some f -> is_number f.
Proof.
  unfold strconv.ParseFloat.
  destruct (bits =? 32); destruct (strconv.read_decimal lit) as [[[neg m] e]|];
    try discriminate;
    match goal with
    | |- context [strconv.float_of_decimal ?a ?b ?c ?d ?e] =>
        destruct (strconv.float_of_decimal a b c d e)
    end; try discriminate; intros [= <-]; exact I.
Qed.

Lemma decoded_float_is_number (o : option value) (x : option spec_float) :
  from_option decode_float32 (Some None) o = Some x ->
  forall f, x = Some f -> is_number f.
Proof.
  intros Hx f ->. destruct o as [v|]; simpl in Hx; [|discriminate].
  apply decode_float32_Some in Hx as [[_ [=]] | (lit & f' & _ & Hf & [= <-])].
  apply (ParseFloat_is_number _ _ _ Hf).
Qed.

Lemma uint32_range (z : Z) : 0 <= GoInt.uint32 z < 2 ^ 32.
Proof. apply Z.mod_pos_bound. lia. Qed.

(** X14. A body that is null, or an object none of whose keys is the tag of
    a field, gives the default message (max_tokens 1024, top_p 1.0, n 1,
    both penalties 0.0, no temperature, no seed, no stop sequence) and a
    false stream flag. *)
Theorem body_without_sampling_members (body : value) :
  body = JNull \/
  (exists ms, body = JObject ms /\
              Forall (fun kv => field_of_key kv.1 = None) ms) ->
  ParseSamplingParams (Some body) = Ok (default_sampling, false).
Proof.
  intros [-> | (ms & -> & Hms)].
  - reflexivity.
  - apply (ParseSamplingParams_decoded (Some (JObject ms)) samplingParams_zero).
    rewrite Unmarshal_object. now apply decode_members_unknown.
Qed.

Lemma body_without_sampling_members_witness :
  ParseSamplingParams
    (Some (JObject [("model", JString "llama-2"); ("messages", JArray [])]))
  = Ok (default_sampling, false).
Proof.
  apply body_without_sampling_members. right. eexists. split; [reflexivity|].
  repeat constructor.
Defined.

(** X15. Every message ParseSamplingParams returns fits the types of its
    fields: max_tokens is set and, like n, within uint32; a seed is within
    int32; top_p, the penalties and a temperature are numbers, neither
    infinite nor NaN. *)
Theorem message_fits_its_field_types
    (body : option value) (sp : vllm.SamplingParams) (st : bool) :
  ParseSamplingParams body = Ok (sp, st) ->
  (exists m, vllm.MaxTokens sp = Some m /\ 0 <= m < 2 ^ 32) /\
  0 <= vllm.N sp < 2 ^ 32 /\
  (forall s, vllm.Seed sp = Some s -> - 2 ^ 31 <= s < 2 ^ 31) /\
  is_number (vllm.TopP sp) /\
  is_number (vllm.FrequencyPenalty sp) /\
  is_number (vllm.PresencePenalty sp) /\
  (forall t, vllm.Temperature sp = Some t -> is_number t).
Proof.
  intros Hok.
  apply ParseSamplingParams_Ok_inv in Hok as (p & Hdec & -> & _).
  assert (Hp : (forall s, Seed p = Some s -> - 2 ^ 31 <= s < 2 ^ 31) /\
               (forall f, TopP p = Some f -> is_number f) /\
               (forall f, FrequencyPenalty p = Some f -> is_number f) /\
               (forall f, PresencePenalty p = Some f -> is_number f) /\
               (forall f, Temperature p = Some f -> is_number f)).
  { destruct body as [[| | | | |ms]|]; simpl in Hdec; try discriminate.
    - injection Hdec as <-. repeat split; discriminate.
    - pose proof (decoded_Seed _ _ Hdec) as Hse.
      pose proof (decoded_TopP _ _ Hdec) as Htp.
      pose proof (decoded_FrequencyPenalty _ _ Hdec) as Hfp.
      pose proof (decoded_PresencePenalty _ _ Hdec) as Hpp.
      pose proof (decoded_Temperature _ _ Hdec) as Hte.
      split;
        [|repeat apply conj; eapply decoded_float_is_number; eassumption].
      intros s Hs. rewrite Hs in Hse.
      destruct (lookup_field FSeed ms) as [v|]; simpl in Hse; [|discriminate].
      apply decode_int_Some in Hse
        as [[_ [=]] | (lit & i & _ & _ & Hfit & [= <-])].
      now apply wrap_signed_32_fits. }
  destruct Hp as (Hse & Htp & Hfp & Hpp & Hte).
  unfold sampling_of; simpl.
  split; [|split; [|split; [|split; [|split; [|split]]]]].
  - eexists. split; [reflexivity|].
    destruct (MaxTokens p); simpl; [apply uint32_range | lia].
  - destruct (N p); simpl; [apply uint32_range | lia].
  - exact Hse.
  - destruct (TopP p); simpl; [eauto | exact I].
  - destruct (FrequencyPenalty p); simpl; [eauto | exact I].
  - destruct (PresencePenalty p); simpl; [eauto | exact I].
  - exact Hte.
Qed.

Lemma message_fits_its_field_types_witness :
  match ParseSamplingParams
          (Some (JObject [("max_tokens", JNumber "-1");
                          ("seed", JNumber "-2147483648");
                          ("temperature", JNumber "3e38")])) with
  | Ok (sp, _) =>
      vllm.MaxTokens sp = Some 4294967295 /\ 0 <= vllm.N sp < 2 ^ 32
  | Err _ => False
  end.
Proof.
  destruct (ParseSamplingParams
              (Some (JObject [("max_tokens", JNumber "-1");
                              ("seed", JNumber "-2147483648");
                              ("temperature", JNumber "3e38")])))
    as [[sp st]|e] eqn:Hok; [|vm_compute in Hok; discriminate].
  split.
  - vm_compute in Hok. injection Hok as <- _. reflexivity.
  - apply (message_fits_its_field_types _ _ _ Hok).
Defined.

(** X16. Whenever the sampling parameters decode, a max_tokens or n member
    that is a number passes unchanged exactly when it is within uint32; a
    negative one comes out as itself plus 2^32 as long as it is not below
    -2^32. *)
Theorem counts_within_uint32_are_kept
    (ms : list (string * value)) (sp : vllm.SamplingParams) (st : bool) :
  ParseSamplingParams (Some (JObject ms)) = Ok (sp, st) ->
  (forall lit i,
      lookup_field FMaxTokens ms = Some (JNumber lit) ->
      strconv.ParseInt lit 64 = Some i ->
      (vllm.MaxTokens sp = Some i <-> 0 <= i < 2 ^ 32) /\
      (- 2 ^ 32 <= i < 0 -> vllm.MaxTokens sp = Some (i + 2 ^ 32))) /\
  (forall lit i,
      lookup_field FN ms = Some (JNumber lit) ->
      strconv.ParseInt lit 64 = Some i ->
      (vllm.N sp = i <-> 0 <= i < 2 ^ 32) /\
      (- 2 ^ 32 <= i < 0 -> vllm.N sp = i + 2 ^ 32)).
Proof.
  intros Hok.
  apply ParseSamplingParams_Ok_inv in Hok as (p & Hdec & -> & _).
  rewrite Unmarshal_object in Hdec.
  pose proof (decoded_MaxTokens _ _ Hdec) as Hmt.
  pose proof (decoded_N _ _ Hdec) as Hn.
  assert (Hcut : forall i,
             (i mod 2 ^ 32 = i <-> 0 <= i < 2 ^ 32) /\
             (- 2 ^ 32 <= i < 0 -> i mod 2 ^ 32 = i + 2 ^ 32)).
  { intros i. split; [split|].
    - intros <-. apply Z.mod_pos_bound. lia.
    - apply Z.mod_small.
    - intros Hi. symmetry. apply (Z.mod_unique_pos _ _ (-1)); lia. }
  unfold sampling_of; simpl. split; intros lit i Hlk Hi.
  - rewrite Hlk in Hmt. cbn [from_option] in Hmt.
    unfold decode_int in Hmt. rewrite Hi in Hmt.
    destruct (GoInt.wrap_signed 64 i =? i); [|discriminate].
    injection Hmt as <-. simpl. unfold GoInt.uint32, GoInt.wrap_unsigned.
    destruct (Hcut i) as [[H1 H2] H3]. split; [split|].
    + intros [= Heq]. auto.
    + intros Hr. f_equal. auto.
    + intros Hr. f_equal. auto.
  - rewrite Hlk in Hn. cbn [from_option] in Hn.
    unfold decode_int in Hn. rewrite Hi in Hn.
    destruct (GoInt.wrap_signed 64 i =? i); [|discriminate].
    injection Hn as <-. simpl. unfold GoInt.uint32, GoInt.wrap_unsigned.
    apply Hcut.
Qed.

Lemma counts_within_uint32_are_kept_witness :
  match ParseSamplingParams
          (Some (JObject [("max_tokens", JNumber "-16");
                          ("n", JNumber "3")])) with
  | Ok (sp, _) =>
      vllm.MaxTokens sp = Some (-16 + 2 ^ 32) /\ vllm.N sp = 3
  | Err _ => False
  end.
Proof.
  destruct (ParseSamplingParams
              (Some (JObject [("max_tokens", JNumber "-16");
                              ("n", JNumber "3")])))
    as [[sp st]|e] eqn:Hok; [|vm_compute in Hok; discriminate].
  destruct (counts_within_uint32_are_kept _ _ _ Hok) as [Hmt Hn].
  split.
  - apply (Hmt "-16" (-16)); [reflexivity | reflexivity | lia].
  - apply (Hn "3" 3); [reflexivity | reflexivity | lia].
Defined.

(** X17. Whenever the sampling parameters decode, a penalty whose member is
    absent or null is 0.0. *)
Theorem penalties_default_to_zero
    (ms : list (string * value)) (sp : vllm.SamplingParams) (st : bool) :
  ParseSamplingParams (Some (JObject ms)) = Ok (sp, st) ->
  (absent_or_null (lookup_field FFrequencyPenalty ms) ->
   vllm.FrequencyPenalty sp = vllm.float32_0) /\
  (absent_or_null (lookup_field FPresencePenalty ms) ->
   vllm.PresencePenalty sp = vllm.float32_0).
Proof.
  intros Hok.
  apply ParseSamplingParams_Ok_inv in Hok as (p & Hdec & -> & _).
  rewrite Unmarshal_object in Hdec.
  pose proof (decoded_FrequencyPenalty _ _ Hdec) as Hfp.
  pose proof (decoded_PresencePenalty _ _ Hdec) as Hpp.
  unfold sampling_of; simpl. split; intros Ha.
  - rewrite (absent_or_null_float32 _ _ Ha Hfp). reflexivity.
  - rewrite (absent_or_null_float32 _ _ Ha Hpp). reflexivity.
Qed.

Lemma penalties_default_to_zero_witness :
  match ParseSamplingParams
          (Some (JObject [("frequency_penalty", JNumber "0.5");
                          ("frequency_penalty", JNull)])) with
  | Ok (sp, _) =>
      vllm.FrequencyPenalty sp = vllm.float32_0 /\
      vllm.PresencePenalty sp = vllm.float32_0
  | Err _ => False
  end.
Proof.
  destruct (ParseSamplingParams
              (Some (JObject [("frequency_penalty", JNumber "0.5");
                              ("frequency_penalty", JNull)])))
    as [[sp st]|e] eqn:Hok; [|vm_compute in Hok; discriminate].
  destruct (penalties_default_to_zero _ _ _ Hok) as [Hfp Hpp].
  split.
  - apply Hfp. right. reflexivity.
  - apply Hpp. left. reflexivity.
Defined.

End Message.

(** ** The pass-through parser *)

Section PassThrough.

(** The map an object is decoded into holds, under each key, the decoded
    value of the last member with that key. *)
Lemma bodyMap_of_object (ms : list (string * value)) (m : gmap string any) :
  openai.Unmarshal_bodyMap (Some (JObject ms)) = Some m ->
  forall k, m !! k = last_member k ms ≫= valueInterface.
Proof.
  unfold openai.Unmarshal_bodyMap.
  destruct (valueInterface (JObject ms)) as [a|] eqn:Ha; [|discriminate].
  simpl in Ha. apply fmap_Some in Ha as (m' & Hm' & ->). intros [= <-].
  assert (Hgen : forall k,
             m' !! k = match last_member k ms with
                       | Some v => valueInterface v
                       | None => (∅ : gmap string any) !! k
                       end).
  { revert Hm'. generalize (∅ : gmap string any).
    induction ms as [|[k0 v0] ms IH]; intros m0 Hm' k.
    - injection Hm' as <-. reflexivity.
    - apply bind_Some in Hm' as (a & Ha & Hrest).
      rewrite (IH _ Hrest k). simpl.
      destruct (last_member k ms) as [w|]; [reflexivity|].
      case_bool_decide as Hk.
      + subst k0. rewrite Ha. apply lookup_insert_eq.
      + now apply lookup_insert_ne. }
  intros k. rewrite Hgen. destruct (last_member k ms); reflexivity.
Qed.

(** The decoder stores a body in a map exactly when the body is storable. *)
Lemma bodyMap_is_Some (body : option value) :
  is_Some (openai.Unmarshal_bodyMap body) <-> storable_body body.
Proof.
  unfold storable_body. split.
  - intros [m Hm]. destruct body as [[| | | | |ms]|]; try discriminate.
    + left. reflexivity.
    + right. exists ms. split; [reflexivity|].
      unfold openai.Unmarshal_bodyMap in Hm.
      destruct (valueInterface (JObject ms)) as [a|] eqn:Ha; [|discriminate].
      clear Hm. simpl in Ha. apply fmap_Some in Ha as (m' & Hm' & _).
      revert Hm'. generalize (∅ : gmap string any).
      induction ms as [|[k0 v0] ms IH]; intros m0 Hm'; constructor.
      * apply bind_Some in Hm' as (a0 & Ha0 & _). simpl. eauto.
      * apply bind_Some in Hm' as (a0 & _ & Hrest). eapply IH, Hrest.
  - intros [-> | (ms & -> & Hms)].
    + simpl. eauto.
    + destruct (valueInterface_object ms Hms) as [a Ha].
      unfold openai.Unmarshal_bodyMap. rewrite Ha.
      simpl in Ha. apply fmap_Some in Ha as (m & _ & ->). eauto.
Qed.

(** X20. ParseRequest of the pass-through parser succeeds exactly when the
    body is storable and the canonical extraction succeeds. Its result is
    then the extracted chat-completion view together with the body as a map:
    empty for a null body, and for an object the decoded value of the last
    member of each key. *)
Theorem pass_through_request_success
    (Content : Type)
    (ExtractRequestBody :
       option value -> gmap string string ->
       result error (scheduling.LLMRequestBody Content))
    (headers : gmap string string) (body : option value)
    (out : scheduling.LLMRequestBody Content) :
  openai.ParseRequest Content ExtractRequestBody headers body = Ok out <->
  exists extractedBody bodyMap,
    ExtractRequestBody body headers = Ok extractedBody /\
    out = {| scheduling.ChatCompletions :=
               scheduling.ChatCompletions extractedBody;
             scheduling.ParsedBody := scheduling.BodyMap bodyMap |} /\
    storable_body body /\
    (body = Some JNull -> bodyMap = ∅) /\
    (forall ms, body = Some (JObject ms) ->
                forall k, bodyMap !! k = last_member k ms ≫= valueInterface).
Proof.
  unfold openai.ParseRequest. split.
  - destruct (openai.Unmarshal_bodyMap body) as [m|] eqn:Hm; [|discriminate].
    destruct (ExtractRequestBody body headers) as [eb|e]; simpl;
      [|discriminate].
    intros [= <-]. exists eb, m. repeat split.
    + apply bodyMap_is_Some. eauto.
    + intros ->. simpl in Hm. congruence.
    + intros ms ->. now apply bodyMap_of_object.
  - intros (eb & m & -> & -> & Hst & Hnull & Hobj).
    apply bodyMap_is_Some in Hst as [m' Hm']. rewrite Hm'. simpl.
    do 3 f_equal.
    destruct body as [[| | | | |ms]|]; try discriminate.
    + rewrite Hnull by reflexivity. simpl in Hm'. congruence.
    + apply map_eq. intros k.
      rewrite (bodyMap_of_object _ _ Hm' k). symmetry. now apply Hobj.
Qed.

(** X21. ParseRequest of the pass-through parser fails in two cases only:
    with its own unmarshalling error when the body is not storable, whatever
    the canonical extraction would say; with the error of the canonical
    extraction, unchanged, when the body is storable and that fails. *)
Theorem pass_through_request_failure
    (Content : Type)
    (ExtractRequestBody :
       option value -> gmap string string ->
       result error (scheduling.LLMRequestBody Content))
    (headers : gmap string string) (body : option value) (e : error) :
  openai.ParseRequest Content ExtractRequestBody headers body = Err e <->
  (~ storable_body body /\ e = UnmarshalBodyMap) \/
  (storable_body body /\ ExtractRequestBody body headers = Err e).
Proof.
  unfold openai.ParseRequest. rewrite <- bodyMap_is_Some.
  destruct (openai.Unmarshal_bodyMap body) as [m|] eqn:Hm.
  - destruct (ExtractRequestBody body headers) as [eb|e0]; simpl; split.
    + discriminate.
    + intros [[Hn _] | [_ [=]]]. exfalso. apply Hn. eauto.
    + intros [= <-]. right. eauto.
    + intros [[Hn _] | [_ [= <-]]]; [|reflexivity]. exfalso. apply Hn. eauto.
  - split.
    + intros [= <-]. left. split; [|reflexivity]. intros [? [=]].
    + intros [[_ ->] | [[? [=]] _]]. reflexivity.
Qed.

(** X22. The response operations of the pass-through parser. ParseResponse
    returns a ParsedResponse exactly when the collaborator reports a usage
    and no error, and then no error; otherwise it returns the collaborator's
    error, which is none when the collaborator found neither. A usage
    reported along with an error is dropped. ParseStreamResponse returns a
    ParsedResponse exactly when the collaborator finds a usage, and its own
    error otherwise. *)
Theorem pass_through_response_outcomes
    (ExtractUsage : string -> option requestcontrol.Usage * option error)
    (ExtractUsageStreaming : string -> resputil.ResponseBody)
    (body chunk : string) :
  (forall r e,
      openai.ParseResponse ExtractUsage body = (Some r, e) <->
      e = None /\
      exists u, ExtractUsage body = (Some u, None) /\
                r = {| payloadprocess.Usage := Some u |}) /\
  (forall e,
      openai.ParseResponse ExtractUsage body = (None, e) <->
      (ExtractUsage body).2 = e /\
      (e = None -> (ExtractUsage body).1 = None)) /\
  (forall r e,
      openai.ParseStreamResponse ExtractUsageStreaming chunk = (Some r, e) <->
      e = None /\
      exists u, resputil.Usage (ExtractUsageStreaming chunk) = Some u /\
                r = {| payloadprocess.Usage := Some u |}) /\
  (forall e,
      openai.ParseStreamResponse ExtractUsageStreaming chunk = (None, e) <->
      resputil.Usage (ExtractUsageStreaming chunk) = None /\
      e = Some NoUsageInStreamResponse).
Proof.
  unfold openai.ParseResponse, openai.ParseStreamResponse.
  split; [|split; [|split]].
  - intros r e. destruct (ExtractUsage body) as [[u|] [e'|]]; simpl; split;
      try discriminate.
    + intros (_ & u' & [=] & _).
    + intros [= <- <-]. eauto.
    + intros (-> & u' & [= <-] & ->). reflexivity.
    + intros (_ & u' & [=] & _).
    + intros (_ & u' & [=] & _).
  - intros e. destruct (ExtractUsage body) as [[u|] [e'|]]; simpl; split;
      try discriminate.
    + intros [= <-]. split; [reflexivity | discriminate].
    + intros [<- _]. reflexivity.
    + intros [<- H]. discriminate (H eq_refl).
    + intros [= <-]. split; [reflexivity | discriminate].
    + intros [<- _]. reflexivity.
    + intros [= <-]. auto.
    + intros [<- _]. reflexivity.
  - intros r e.
    destruct (resputil.Usage (ExtractUsageStreaming chunk)) as [u|]; split;
      try discriminate.
    + intros [= <- <-]. eauto.
    + intros (-> & u' & [= <-] & ->). reflexivity.
    + intros (_ & u' & [=] & _).
  - intros e.
    destruct (resputil.Usage (ExtractUsageStreaming chunk)) as [u|]; split;
      try discriminate.
    + intros [[=] _].
    + intros [= <-]. auto.
    + intros [_ ->]. reflexivity.
Qed.

End PassThrough.

(** ** The combined prompt *)

Section Prompt.

Variable Content : Type.
Variable PlainText : Content -> string.

(** X23. The prompt of a conversation continued by further messages is the
    prompt of the conversation followed by the prompt of those messages:
    each message contributes its own line, whatever stands around it. *)
Theorem combined_prompt_of_appended_messages
    (msgs1 msgs2 : list (scheduling.Message Content))
    (pb : scheduling.parsed_body) (prompt1 prompt2 : string) :
  vllm_grpc.ExtractCombinedPrompt Content PlainText
    {| scheduling.ChatCompletions := Some {| scheduling.Messages := msgs1 |};
       scheduling.ParsedBody := pb |}
  = Ok prompt1 ->
  vllm_grpc.ExtractCombinedPrompt Content PlainText
    {| scheduling.ChatCompletions := Some {| scheduling.Messages := msgs2 |};
       scheduling.ParsedBody := pb |}
  = Ok prompt2 ->
  vllm_grpc.ExtractCombinedPrompt Content PlainText
    {| scheduling.ChatCompletions :=
         Some {| scheduling.Messages := msgs1 ++ msgs2 |};
       scheduling.ParsedBody := pb |}
  = Ok (prompt1 ++ prompt2)%string.
Proof.
  unfold vllm_grpc.ExtractCombinedPrompt. simpl.
  intros [= <-] [= <-]. rewrite fold_left_app.
  rewrite (builder_loop PlainText msgs2 (fold_left _ msgs1 _)).
  rewrite (builder_loop PlainText msgs2 ""). reflexivity.
Qed.

(** X24. The prompt keeps the contents of the messages only: two bodies
    whose messages have the same contents in the same order give the same
    prompt, whatever the roles and the parsed bodies are. *)
Theorem combined_prompt_ignores_roles
    (msgs1 msgs2 : list (scheduling.Message Content))
    (pb1 pb2 : scheduling.parsed_body) :
  map scheduling.Content_ msgs1 = map scheduling.Content_ msgs2 ->
  vllm_grpc.ExtractCombinedPrompt Content PlainText
    {| scheduling.ChatCompletions := Some {| scheduling.Messages := msgs1 |};
       scheduling.ParsedBody := pb1 |}
  = vllm_grpc.ExtractCombinedPrompt Content PlainText
    {| scheduling.ChatCompletions := Some {| scheduling.Messages := msgs2 |};
       scheduling.ParsedBody := pb2 |}.
Proof.
  intros Hc. unfold vllm_grpc.ExtractCombinedPrompt. simpl.
  rewrite !builder_loop. do 3 f_equal.
  rewrite <- (map_map scheduling.Content_
                (fun c => (PlainText c ++ vllm_grpc.newline)%string) msgs1).
  rewrite <- (map_map scheduling.Content_
                (fun c => (PlainText c ++ vllm_grpc.newline)%string) msgs2).
  now rewrite Hc.
Qed.

(** X25. Whenever a prompt is extracted, the body has a chat-completion
    view, the length of the prompt is the sum over the messages of the length
    of the plain text plus one, and the prompt is empty only when there is no
    message. *)
Theorem combined_prompt_length
    (extractedBody : scheduling.LLMRequestBody Content) (prompt : string) :
  vllm_grpc.ExtractCombinedPrompt Content PlainText extractedBody
  = Ok prompt ->
  exists chatview,
    scheduling.ChatCompletions extractedBody = Some chatview /\
    String.length prompt
    = list_sum
        (map (fun msg =>
                S (String.length (PlainText (scheduling.Content_ msg))))
           (scheduling.Messages chatview)) /\
    (prompt = "" <-> scheduling.Messages chatview = []).
Proof.
  unfold vllm_grpc.ExtractCombinedPrompt.
  destruct (scheduling.ChatCompletions extractedBody) as [chatview|];
    [|discriminate].
  intros [= <-]. exists chatview. split; [reflexivity|].
  rewrite builder_loop. simpl.
  assert (Hlen : forall msgs : list (scheduling.Message Content),
             String.length
               (fold_right String.append ""
                  (map (fun msg => (PlainText (scheduling.Content_ msg)
                                    ++ vllm_grpc.newline)%string) msgs))
             = list_sum
                 (map (fun msg =>
                         S (String.length (PlainText (scheduling.Content_ msg))))
                    msgs)).
  { induction msgs as [|m msgs IH]; simpl; [reflexivity|].
    rewrite !string_length_app, IH. simpl. lia. }
  split; [apply Hlen|].
  specialize (Hlen (scheduling.Messages chatview)).
  destruct (scheduling.Messages chatview) as [|m msgs]; simpl in *.
  - split; reflexivity.
  - split; [|discriminate]. intros Heq. rewrite Heq in Hlen.
    simpl in Hlen. discriminate.
Qed.

End Prompt.

Lemma combined_prompt_of_appended_messages_witness :
  vllm_grpc.ExtractCombinedPrompt string (fun c => c)
    (chat_body ([text_message "system" "Be brief."]
                ++ [text_message "user" "Hello"]))
  = Ok (("Be brief." ++ vllm_grpc.newline)
        ++ ("Hello" ++ vllm_grpc.newline))%string.
Proof.
  apply (combined_prompt_of_appended_messages string (fun c => c)
           [text_message "system" "Be brief."] [text_message "user" "Hello"]);
    reflexivity.
Defined.

Lemma combined_prompt_ignores_roles_witness :
  vllm_grpc.ExtractCombinedPrompt string (fun c => c)
    (chat_body [text_message "system" "Hello"])
  = vllm_grpc.ExtractCombinedPrompt string (fun c => c)
      (chat_body [text_message "user" "Hello"]).
Proof.
  apply (combined_prompt_ignores_roles string (fun c => c)
           [text_message "system" "Hello"] [text_message "user" "Hello"]).
  reflexivity.
Defined.

Lemma combined_prompt_length_witness :
  exists chatview,
    scheduling.ChatCompletions
      (chat_body [text_message "user" "Hello"; text_message "user" "Hi"])
    = Some chatview /\
    String.length ("Hello" ++ vllm_grpc.newline ++ "Hi" ++ vllm_grpc.newline)
    = list_sum
        (map (fun msg => S (String.length (scheduling.Content_ msg)))
           (scheduling.Messages chatview)) /\
    (("Hello" ++ vllm_grpc.newline ++ "Hi" ++ vllm_grpc.newline)%string = ""
     <-> scheduling.Messages chatview = []).
Proof.
  apply (combined_prompt_length string (fun c => c)
           (chat_body [text_message "user" "Hello"; text_message "user" "Hi"])).
  reflexivity.
Defined.

(** ** The shape of a generated identifier *)

Section Generated.

Lemma version_nibble (x : Z) : Z.shiftr (Z.lor (Z.land x 15) 64) 4 = 4.
Proof.
  rewrite Z.shiftr_lor, Z.shiftr_land.
  change (Z.shiftr 15 4) with 0. change (Z.shiftr 64 4) with 4.
  rewrite Z.land_0_r. reflexivity.
Qed.

Lemma variant_nibble (x : Z) :
  8 <= Z.shiftr (Z.lor (Z.land x 63) 128) 4 < 12.
Proof.
  rewrite Z.shiftr_lor, Z.shiftr_land.
  change (Z.shiftr 63 4) with (Z.ones 2). change (Z.shiftr 128 4) with 8.
  rewrite Z.land_ones by lia.
  pose proof (Z.mod_pos_bound (Z.shiftr x 4) (2 ^ 2) ltac:(lia)) as Hm.
  change (2 ^ 2) with 4 in *.
  assert (Hc : Z.shiftr x 4 mod 4 = 0 \/ Z.shiftr x 4 mod 4 = 1 \/
               Z.shiftr x 4 mod 4 = 2 \/ Z.shiftr x 4 mod 4 = 3) by lia.
  destruct Hc as [-> | [-> | [-> | ->]]];
    match goal with
    | |- context [Z.lor ?a 8] =>
        let v := eval vm_compute in (Z.lor a 8) in
        change (Z.lor a 8) with v
    end; lia.
Qed.

(** X26. An identifier generated for want of a request-ID header has the
    text form of a version-4 UUID: hyphens at positions 8, 13, 18 and 23, the
    digit 4 at position 14, and one of 8, 9, a, b at position 19. *)
Theorem generated_id_is_version_4
    (key : string) (headers : gmap string string) (rand : uuid.Reader) :
  headers !! key = None ->
  let id := vllm_grpc.ExtractRequestID key headers rand in
  String.get 8 id = Some "-"%char /\
  String.get 13 id = Some "-"%char /\
  String.get 18 id = Some "-"%char /\
  String.get 23 id = Some "-"%char /\
  String.get 14 id = Some "4"%char /\
  exists c, String.get 19 id = Some c /\
            In c ["8"; "9"; "a"; "b"]%char.
Proof.
  intros Hk. unfold vllm_grpc.ExtractRequestID. rewrite Hk.
  lazy -[Z.shiftr Z.land Z.lor Z.modulo uuid.hexdigit In].
  repeat split.
  - rewrite version_nibble. reflexivity.
  - eexists. split; [reflexivity|].
    pose proof (variant_nibble (rand 8%nat mod 256)) as Hv.
    assert (Hc : Z.shiftr (Z.lor (Z.land (rand 8%nat mod 256) 63) 128) 4 = 8 \/
                 Z.shiftr (Z.lor (Z.land (rand 8%nat mod 256) 63) 128) 4 = 9 \/
                 Z.shiftr (Z.lor (Z.land (rand 8%nat mod 256) 63) 128) 4 = 10 \/
                 Z.shiftr (Z.lor (Z.land (rand 8%nat mod 256) 63) 128) 4 = 11)
      by lia.
    destruct Hc as [-> | [-> | [-> | ->]]]; simpl; auto.
Qed.

Lemma generated_id_is_version_4_witness :
  String.get 14 (vllm_grpc.ExtractRequestID "x-request-id" ∅ (fun _ => 171))
  = Some "4"%char.
Proof.
  apply (generated_id_is_version_4 "x-request-id" ∅ (fun _ => 171)).
  reflexivity.
Defined.

End Generated.
